(** * scoop-witness-api: the capture task, [scoop_witness_api/tasks.py]

    A shallow embedding of [start_capture_process] and the properties of
    one capture cycle: sentinel check, port probe, job claim, supervision
    of the Scoop child process, verification of the artifacts, webhook
    and re-scheduling of the task. *)

From Stdlib Require Import ZArith String List Bool Lia.
From stdpp Require Import base option list gmap strings pretty.

Local Open Scope string_scope.
Local Open Scope list_scope.

(** ** Data model *)

(** [Capture.status] takes one of four values. *)
Inductive Status := pending | started | success | failed.

#[global] Instance Status_eq_dec : EqDecision Status.
Proof. solve_decision. Defined.

(** A value of the summary's ["attachments"] mapping: a filename, or a
    list of filenames (["certificates"] is a list). *)
Inductive Attachment :=
| OneFile (filename : string)
| ManyFiles (filenames : list string).

(** The JSON summary written by Scoop, as far as the task reads it:
    [attachments] is [None] when the document has no ["attachments"]
    mapping, in which case [json_summary["attachments"].values()] raises. *)
Record Summary := { attachments : option (list (string * Attachment)) }.

(** A row of the [Capture] table, with the fields the task touches. *)
Record Capture := {
  id_capture : string;
  url : string;
  callback_url : option string;
  status : Status;
  created_timestamp : Z;
  started_timestamp : option Z;
  ended_timestamp : option Z;
  stdout_logs : option string;
  stderr_logs : option string;
  summary : option Summary }.

Definition set_status (v : Status) (c : Capture) : Capture :=
  {| id_capture := id_capture c; url := url c; callback_url := callback_url c;
     status := v; created_timestamp := created_timestamp c;
     started_timestamp := started_timestamp c;
     ended_timestamp := ended_timestamp c; stdout_logs := stdout_logs c;
     stderr_logs := stderr_logs c; summary := summary c |}.

Definition set_started_timestamp (v : Z) (c : Capture) : Capture :=
  {| id_capture := id_capture c; url := url c; callback_url := callback_url c;
     status := status c; created_timestamp := created_timestamp c;
     started_timestamp := Some v;
     ended_timestamp := ended_timestamp c; stdout_logs := stdout_logs c;
     stderr_logs := stderr_logs c; summary := summary c |}.

Definition set_ended_timestamp (v : Z) (c : Capture) : Capture :=
  {| id_capture := id_capture c; url := url c; callback_url := callback_url c;
     status := status c; created_timestamp := created_timestamp c;
     started_timestamp := started_timestamp c;
     ended_timestamp := Some v; stdout_logs := stdout_logs c;
     stderr_logs := stderr_logs c; summary := summary c |}.

Definition set_stdout_logs (v : string) (c : Capture) : Capture :=
  {| id_capture := id_capture c; url := url c; callback_url := callback_url c;
     status := status c; created_timestamp := created_timestamp c;
     started_timestamp := started_timestamp c;
     ended_timestamp := ended_timestamp c; stdout_logs := Some v;
     stderr_logs := stderr_logs c; summary := summary c |}.

Definition set_stderr_logs (v : string) (c : Capture) : Capture :=
  {| id_capture := id_capture c; url := url c; callback_url := callback_url c;
     status := status c; created_timestamp := created_timestamp c;
     started_timestamp := started_timestamp c;
     ended_timestamp := ended_timestamp c; stdout_logs := stdout_logs c;
     stderr_logs := Some v; summary := summary c |}.

Definition set_summary (v : Summary) (c : Capture) : Capture :=
  {| id_capture := id_capture c; url := url c; callback_url := callback_url c;
     status := status c; created_timestamp := created_timestamp c;
     started_timestamp := started_timestamp c;
     ended_timestamp := ended_timestamp c; stdout_logs := stdout_logs c;
     stderr_logs := stderr_logs c; summary := Some v |}.

(** ** The [Capture] table (peewee queries used by the task) *)

Module Table.

Definition is_pending (c : Capture) : bool := bool_decide (status c = pending).

(** [Capture.select().where(Capture.status == "pending")
      .order_by("created_timestamp").paginate(1, 1)]: the first page of
    one row, so at most one row.  [order_by] is given the string
    ["created_timestamp"], not the field [Capture.created_timestamp]:
    the string is bound as a constant of the query and orders nothing,
    so the row is the first pending one in the order in which the table
    yields its rows, the order of the list. *)
Definition select_pending (db : list Capture) : list Capture :=
  firstn 1 (List.filter is_pending db).

Definition claimable (id : string) (r : Capture) : bool :=
  String.eqb (id_capture r) id && is_pending r.

(** [Capture.update(status="started").where(Capture.id_capture == id,
      Capture.status == "pending").execute()]: the table after the
    update, and the number of rows it changed. *)
Definition update_started (id : string) (db : list Capture)
  : list Capture * nat :=
  (List.map (fun r => if claimable id r then set_status started r else r) db,
   length (List.filter (claimable id) db)).

(** [Capture.get(Capture.id_capture == id)]; [None] stands for
    [DoesNotExist]. *)
Definition get (id : string) (db : list Capture) : option Capture :=
  List.find (fun r => String.eqb (id_capture r) id) db.

(** [capture.save()]: an UPDATE of every field of the row whose primary
    key is [capture.id_capture]. *)
Definition save (c : Capture) (db : list Capture) : list Capture :=
  List.map (fun r => if String.eqb (id_capture r) (id_capture c) then c else r) db.

End Table.

(** ** Files *)

(** What a path holds: a directory, or a regular file.  A regular file
    carries the document [json.load] reads from it, [None] when its
    content is not JSON. *)
Inductive File :=
| Directory
| Regular (document : option Summary).

(** [os.path.exists] *)
Definition path_exists (disk : gmap string File) (p : string) : bool :=
  bool_decide (is_Some (disk !! p)).

(** [os.sep] *)
Definition sep : string := "/".

(** ** Configuration

    [current_app.config]; the configuration module is loaded by the
    application factory and is a parameter of the task. *)

Inductive OptionValue := IntOpt (z : Z) | StrOpt (s : string).

Definition str (v : OptionValue) : string :=
  match v with IntOpt z => pretty z | StrOpt s => s end.

Record Config := {
  DEPLOYMENT_SENTINEL_PATH : string;
  TEMPORARY_STORAGE_PATH : string;
  DOWNGRADE_TO_WARC : bool;
  SCOOP_TIMEOUT_FUSE : Z;
  SCOOP_CLI_OPTIONS : list (string * OptionValue) }.

Fixpoint lookup_option (key : string) (opts : list (string * OptionValue))
  : option OptionValue :=
  match opts with
  | [] => None
  | (k, v) :: rest => if String.eqb k key then Some v else lookup_option key rest
  end.

(** ** The child process and the rest of the environment *)

(** The Scoop child process, as [subprocess] observes it.  [lifetime] is
    the time in milliseconds after which the child exits on its own
    ([None]: it never does); [stdout] and [stderr] are the captured
    streams decoded as UTF-8, [None] when [decode] raises;
    [written] are the files present once the child has exited. *)
Record Process := {
  lifetime : option Z;
  returncode : Z;
  stdout : option string;
  stderr : option string;
  written : list (string * File) }.

Inductive ProbeResult :=
| Responded       (* requests.head returned a response *)
| ReadTimeout     (* requests.exceptions.ReadTimeout *)
| OtherError.     (* any other exception: refused, unreachable, DNS *)

(** Everything outside the task that one cycle depends on. *)
Record Env := {
  head : Z -> ProbeResult;
  other_workers : list Capture -> list Capture;
  popen : list string -> option Process;
  interrupted : bool;
  post : string -> bool;
  utcnow_started : Z;
  utcnow_ended : Z }.

(** ** Observable actions *)

Inductive FailedReason :=
| NoReason
| ExitCode (code : option Z)
| NotFound (path : string).

Definition reason_set (r : FailedReason) : bool :=
  match r with NoReason => false | _ => true end.

Inductive Message :=
| MsgInvalidPort
| MsgSentinel
| MsgPortInUse (port : Z)
| MsgMarkedStarted (id : string)
| MsgStorageFolder (path : string)
| MsgStillRunning
| MsgAttachmentNotFound (filepath : string)
| MsgSuccess
| MsgFailed (reason : FailedReason)
| MsgTimeoutViolation
| MsgFailedOther
| MsgTraceback
| MsgAborted
| MsgCallback (url : string)
| MsgCallbackFailed (url : string).

Inductive Event :=
| EvPrint (m : Message)
| EvSelectPending
| EvUpdateStarted (id : string) (rows : nat)
| EvGet (id : string)
| EvSave (id : string)
| EvHead (port timeout : Z)
| EvMakedirs (path : string)
| EvPopen (args : list string)
| EvCommunicate (timeout_ms : Z)
| EvSleep (seconds : Z)
| EvTerminate
| EvKill
| EvPost (url : string) (body : Capture) (timeout : Z)
| EvDelay (proxy_port : Z).

(** ** State of a cycle and the monad of its statements *)

(** The table, the disk and the actions so far, together with the two
    local variables the [except] and [finally] clauses read and the
    [returncode] attribute of the [Popen] object, which stays [None]
    until the child has been waited for. *)
Record State := {
  db : list Capture;
  disk : gmap string File;
  trace : list Event;
  capture : option Capture;
  process : option Process;
  process_returncode : option Z }.

Definition with_db (v : list Capture) (s : State) : State :=
  {| db := v; disk := disk s; trace := trace s;
     capture := capture s; process := process s;
     process_returncode := process_returncode s |}.

Definition with_disk (v : gmap string File) (s : State) : State :=
  {| db := db s; disk := v; trace := trace s;
     capture := capture s; process := process s;
     process_returncode := process_returncode s |}.

Definition with_trace (v : list Event) (s : State) : State :=
  {| db := db s; disk := disk s; trace := v;
     capture := capture s; process := process s;
     process_returncode := process_returncode s |}.

Definition with_capture (v : option Capture) (s : State) : State :=
  {| db := db s; disk := disk s; trace := trace s;
     capture := v; process := process s;
     process_returncode := process_returncode s |}.

Definition with_process (v : option Process) (s : State) : State :=
  {| db := db s; disk := disk s; trace := trace s;
     capture := capture s; process := v;
     process_returncode := process_returncode s |}.

Definition with_process_returncode (v : option Z) (s : State) : State :=
  {| db := db s; disk := disk s; trace := trace s;
     capture := capture s; process := process s;
     process_returncode := v |}.

Inductive Exn :=
| TimeoutExpired      (* subprocess.TimeoutExpired *)
| OtherException      (* any other subclass of Exception *)
| KeyboardInterrupt.  (* caught by the bare except only *)

(** How a block of statements ends: it falls through with a value, it
    executes [return], or it raises. *)
Inductive Outcome (A : Type) :=
| Normal (a : A)
| Return
| Raise (e : Exn).
Arguments Normal {A} a.
Arguments Return {A}.
Arguments Raise {A} e.

Definition M (A : Type) : Type := State -> Outcome A * State.

#[global] Instance M_ret : MRet M := fun A a s => (Normal a, s).

#[global] Instance M_bind : MBind M := fun A B f m s =>
  match m s with
  | (Normal a, s') => f a s'
  | (Return, s') => (Return, s')
  | (Raise e, s') => (Raise e, s')
  end.

Definition early_return {A} : M A := fun s => (Return, s).
Definition raise {A} (e : Exn) : M A := fun s => (Raise e, s).
Definition reads {A} (f : State -> A) : M A := fun s => (Normal (f s), s).
Definition modify (f : State -> State) : M unit := fun s => (Normal tt, f s).
Definition emit (e : Event) : M unit :=
  modify (fun s => with_trace (trace s ++ [e]) s).
Definition print (m : Message) : M unit := emit (EvPrint m).
Definition pass : M unit := mret tt.

(** [x] when the option holds a value, [raise e] otherwise. *)
Definition or_raise {A} (e : Exn) (o : option A) : M A :=
  match o with Some a => mret a | None => raise e end.

(** ** Paths of a capture (lines 121-136) *)

Definition storage_path (cfg : Config) (id : string) : string :=
  TEMPORARY_STORAGE_PATH cfg +:+ sep +:+ id.

Definition json_summary_path (cfg : Config) (id : string) : string :=
  storage_path cfg id +:+ sep +:+ "archive.json".

Definition attachments_path (cfg : Config) (id : string) : string :=
  storage_path cfg id +:+ sep +:+ "attachments".

Definition archive_format (cfg : Config) : string :=
  if DOWNGRADE_TO_WARC cfg then "warc-gzipped" else "wacz".

Definition archive_path (cfg : Config) (id : string) : string :=
  (storage_path cfg id +:+ sep +:+ "archive.")
  +:+ (if String.eqb (archive_format cfg) "wacz" then "wacz" else "warc.gz").

(** ** Port probe (lines 95-101) *)

(** The value of [proxy_port_is_available] after the [try] around
    [requests.head]. *)
Definition proxy_port_is_available (r : ProbeResult) : bool :=
  match r with
  | Responded => false
  | ReadTimeout => false
  | OtherError => true
  end.

(** ** Expected attachments (lines 241-249) *)

Definition filenames_to_check (atts : list (string * Attachment)) : list string :=
  List.fold_left
    (fun acc filename =>
       match filename with
       | ManyFiles l => acc ++ l
       | OneFile f => acc ++ [f]
       end)
    (List.map snd atts) [].

(** ** The task *)

Section Task.

Context (cfg : Config) (env : Env).

(** [capture.field = value] on the object bound to [capture]. *)
Definition assign (f : Capture -> Capture) : M unit :=
  modify (fun s => with_capture (f <$> capture s) s).

(** [capture.save()] *)
Definition save_capture : M unit :=
  c ← reads capture;
  match c with
  | Some c =>
      emit (EvSave (id_capture c));;
      modify (fun s => with_db (Table.save c (db s)) s)
  | None => raise OtherException
  end.

(** [os.makedirs(path)]: [FileExistsError] when the path exists. *)
Definition makedirs (path : string) : M unit :=
  emit (EvMakedirs path);;
  present ← reads (fun s => path_exists (disk s) path);
  if present : bool then raise OtherException
  else modify (fun s => with_disk (<[path := Directory]> (disk s)) s).

(** Lines 75-78. *)
Definition check_sentinel : M unit :=
  present ← reads (fun s => path_exists (disk s) (DEPLOYMENT_SENTINEL_PATH cfg));
  if present : bool then print MsgSentinel;; early_return else pass.

(** Lines 83-88; the query runs at the first [len(captures)] and its
    rows are cached. *)
Definition pull_pending : M (list Capture) :=
  emit EvSelectPending;;
  reads (fun s => Table.select_pending (db s)).

(** Lines 94-106. *)
Definition check_proxy_port (proxy_port : Z) (captures : list Capture) : M unit :=
  if negb (Nat.eqb (length captures) 0) then
    emit (EvHead proxy_port 1);;
    if negb (proxy_port_is_available (head env proxy_port)) then
      print (MsgPortInUse proxy_port);;
      emit (EvDelay (proxy_port + 1));;
      early_return
    else pass
  else pass.

(** Lines 141-154.  Other workers share the table: [other_workers] is
    what they did to it since the pending rows were selected. *)
Definition mark_started (c0 : Capture) : M unit :=
  modify (fun s => with_db (other_workers env (db s)) s);;
  rows ← reads (fun s => snd (Table.update_started (id_capture c0) (db s)));
  modify (fun s => with_db (fst (Table.update_started (id_capture c0) (db s))) s);;
  emit (EvUpdateStarted (id_capture c0) rows);;
  emit (EvGet (id_capture c0));;
  fresh ← reads (fun s => Table.get (id_capture c0) (db s));
  fresh ← or_raise OtherException fresh;
  modify (with_capture (Some fresh));;
  assign (set_started_timestamp (utcnow_started env));;
  save_capture;;
  print (MsgMarkedStarted (id_capture fresh)).

(** Lines 166-184. *)
Definition scoop_args (proxy_port : Z) (c : Capture) : list string :=
  [ "npx"; "scoop"; url c;
    "--output"; archive_path cfg (id_capture c);
    "--format"; archive_format cfg;
    "--json-summary-output"; json_summary_path cfg (id_capture c);
    "--export-attachments-output"; attachments_path cfg (id_capture c);
    "--proxy-port"; pretty proxy_port ]
  ++ List.concat (List.map (fun kv => [fst kv; str (snd kv)]) (SCOOP_CLI_OPTIONS cfg)).

(** [subprocess.Popen(scoop_args, ...)] *)
Definition spawn (args : list string) : M Process :=
  emit (EvPopen args);;
  p ← or_raise OtherException (popen env args);
  modify (fun s => with_process_returncode None (with_process (Some p) s));;
  mret p.

(** The bound of lines 194-195 in milliseconds:
    [scoop_options["--capture-timeout"] / 1000 + int(SCOOP_TIMEOUT_FUSE)]
    seconds. *)
Definition communicate_timeout : M Z :=
  match lookup_option "--capture-timeout" (SCOOP_CLI_OPTIONS cfg) with
  | Some (IntOpt ms) => mret (ms + 1000 * SCOOP_TIMEOUT_FUSE cfg)%Z
  | _ => raise OtherException
  end.

(** [process.communicate(timeout=...)]: returns the two streams once
    the child has exited, raises [TimeoutExpired] when the bound
    elapses first. *)
Definition communicate (p : Process) (timeout_ms : Z)
  : M (option string * option string) :=
  emit (EvCommunicate timeout_ms);;
  if interrupted env then raise KeyboardInterrupt
  else
    match lifetime p with
    | Some d =>
        if (d <=? timeout_ms)%Z then
          modify (fun s =>
            with_process_returncode (Some (returncode p))
              (with_disk (list_to_map (written p) ∪ disk s) s));;
          mret (stdout p, stderr p)
        else raise TimeoutExpired
    | None => raise TimeoutExpired
    end.

(** Lines 251-255. *)
Fixpoint check_files (dir : string) (filenames : list string) (success : bool)
  : M bool :=
  match filenames with
  | [] => mret success
  | filename :: rest =>
      let filepath := dir +:+ sep +:+ filename in
      present ← reads (fun s => path_exists (disk s) filepath);
      if present : bool then check_files dir rest success
      else
        print (MsgAttachmentNotFound filepath);;
        check_files dir rest false
  end.

(** Lines 239-255: [open], [json.load], the copy of the summary and
    the check of the attachments. *)
Definition check_summary (c_id : string) : M bool :=
  file ← reads (fun s => disk s !! json_summary_path cfg c_id);
  match file with
  | Some (Regular (Some json_summary)) =>
      assign (set_summary json_summary);;
      atts ← or_raise OtherException (attachments json_summary);
      check_files (attachments_path cfg c_id) (filenames_to_check atts) true
  | _ => raise OtherException
  end.

(** Lines 212-265. *)
Definition check_capture_results (c_id : string) (scoop_exit_code : option Z)
  : M unit :=
  assign (set_status failed);;
  assign (set_ended_timestamp (utcnow_ended env));;
  let failed_reason :=
    if bool_decide (scoop_exit_code ≠ Some 0%Z)
    then ExitCode scoop_exit_code else NoReason in
  verdict ←
    (if bool_decide (scoop_exit_code = Some 0%Z) then
       archive ← reads (fun s => path_exists (disk s) (archive_path cfg c_id));
       let failed_reason :=
         if archive : bool then failed_reason
         else NotFound (archive_path cfg c_id) in
       json ← reads (fun s => path_exists (disk s) (json_summary_path cfg c_id));
       let summary_missing := negb json && negb (reason_set failed_reason) in
       let failed_reason :=
         if summary_missing then NotFound (json_summary_path cfg c_id)
         else failed_reason in
       if archive && negb summary_missing then
         success ← check_summary c_id;
         mret (success, failed_reason)
       else mret (false, failed_reason)
     else mret (false, failed_reason));
  (if fst verdict : bool then
     print MsgSuccess;; assign (set_status success)
   else
     print (MsgFailed (snd verdict));; assign (set_status failed));;
  save_capture.

(** Lines 114-190: the row picked from the queue is marked as started,
    its folders are created and Scoop is spawned. *)
Definition claim_and_spawn (proxy_port : Z) (c0 : Capture)
  : M (Capture * Process) :=
  modify (with_capture (Some c0));;
  mark_started c0;;
  makedirs (storage_path cfg (id_capture c0));;
  print (MsgStorageFolder (storage_path cfg (id_capture c0)));;
  makedirs (attachments_path cfg (id_capture c0));;
  c ← reads capture;
  c ← or_raise OtherException c;
  p ← spawn (scoop_args proxy_port c);
  mret (c0, p).

(** Lines 75-190: from the sentinel check to the spawn of Scoop.  Falls
    through with the row picked from the queue and the child. *)
Definition begin_capture (proxy_port : Z) : M (Capture * Process) :=
  check_sentinel;;
  captures ← pull_pending;
  check_proxy_port proxy_port captures;;
  (if Nat.eqb (length captures) 0 then early_return else pass);;
  c0 ← or_raise OtherException (captures !! 0%nat);
  claim_and_spawn proxy_port c0.

(** Lines 192-265: wait for the child, store its streams, check the
    results. *)
Definition finish_capture (c0 : Capture) (p : Process) : M unit :=
  timeout_ms ← communicate_timeout;
  streams ← communicate p timeout_ms;
  scoop_exit_code ← reads process_returncode;
  (match scoop_exit_code with
   | None => print MsgStillRunning;; emit (EvSleep 5);; emit EvKill
   | Some _ => pass
   end);;
  scoop_stdout ← or_raise OtherException (fst streams);
  assign (set_stdout_logs scoop_stdout);;
  scoop_stderr ← or_raise OtherException (snd streams);
  assign (set_stderr_logs scoop_stderr);;
  check_capture_results (id_capture c0) scoop_exit_code.

(** Lines 32-265: the body of the [try]. *)
Definition try_block (proxy_port : Z) : M unit :=
  job ← begin_capture proxy_port;
  finish_capture (fst job) (snd job).

(** The three statements shared by the [except] clauses. *)
Definition mark_failed : M unit :=
  assign (set_status failed);;
  assign (set_ended_timestamp (utcnow_ended env));;
  save_capture.

(** Lines 271-279: [except subprocess.TimeoutExpired]. *)
Definition except_TimeoutExpired : M unit :=
  c ← reads capture;
  (if c is Some _ then mark_failed;; print MsgTimeoutViolation else pass);;
  p ← reads process;
  (if p is Some _ then emit EvKill else pass).

(** Lines 283-290: [except Exception]. *)
Definition except_Exception : M unit :=
  c ← reads capture;
  (if c is Some _ then mark_failed;; print MsgFailedOther else pass);;
  print MsgTraceback.

(** Lines 294-302: the bare [except]. *)
Definition except_bare : M unit :=
  print MsgAborted;;
  c ← reads capture;
  match c with
  | Some c =>
      (if bool_decide (status c ≠ failed) then assign (set_status failed) else pass);;
      assign (set_ended_timestamp (utcnow_ended env));;
      save_capture
  | None => pass
  end.

(** The [except] clause that handles the way the body ended. *)
Definition except_clauses (r : Outcome unit) : M unit :=
  match r with
  | Raise TimeoutExpired => except_TimeoutExpired
  | Raise OtherException => except_Exception
  | Raise KeyboardInterrupt => except_bare
  | _ => pass
  end.

(** The [try] with its [except] clauses: the state in which the
    [finally] clause starts. *)
Definition try_except (proxy_port : Z) (s : State) : State :=
  let r := try_block proxy_port s in
  snd (except_clauses (fst r) (snd r)).

(** Python truth value of [capture.callback_url]. *)
Definition callback_of (c : option Capture) : option string :=
  match c with
  | Some c =>
      match callback_url c with
      | Some u => if String.eqb u "" then None else Some u
      | None => None
      end
  | None => None
  end.

(** Lines 307-320: the [finally] clause. *)
Definition finally_block (proxy_port : Z) : M unit :=
  c ← reads capture;
  (match c, callback_of c with
   | Some c, Some u =>
       print (MsgCallback u);;
       emit (EvPost u c 10);;
       if post env u then pass
       else print (MsgCallbackFailed u);; print MsgTraceback
   | _, _ => pass
   end);;
  emit (EvDelay proxy_port);;
  early_return.

(** Lines 28-30: [not proxy_port or proxy_port > 65535]. *)
Definition port_rejected (proxy_port : option Z) : bool :=
  match proxy_port with
  | None => true
  | Some p => (p =? 0)%Z || (65535 <? p)%Z
  end.

(** The state on entry: the local variables are not bound yet. *)
Definition enter (s : State) : State :=
  with_process_returncode None (with_process None (with_capture None s)).

Definition start_capture_process (proxy_port : option Z) (s : State) : State :=
  match proxy_port with
  | Some p =>
      if port_rejected proxy_port then snd (print MsgInvalidPort (enter s))
      else snd (finally_block p (try_except p (enter s)))
  | None => snd (print MsgInvalidPort (enter s))
  end.

End Task.

(** ** Observations on a trace *)

(** The ports of the cycles handed to the broker, in order. *)
Definition scheduled (t : list Event) : list Z :=
  omap (fun e => match e with EvDelay p => Some p | _ => None end) t.

(** The webhook deliveries attempted, in order. *)
Definition posts (t : list Event) : list (string * Capture * Z) :=
  omap (fun e => match e with EvPost u c n => Some (u, c, n) | _ => None end) t.

(** The signals sent to the child and the pauses of the task, in order. *)
Definition supervision (t : list Event) : list Event :=
  List.filter
    (fun e => match e with
              | EvTerminate | EvKill | EvSleep _ => true
              | _ => false
              end) t.

(** The signals sent to the child, in order. *)
Definition signals (t : list Event) : list Event :=
  List.filter
    (fun e => match e with
              | EvTerminate | EvKill => true
              | _ => false
              end) t.

(** The attachment files reported missing, in order. *)
Definition reported_missing (t : list Event) : list string :=
  omap (fun e => match e with
                 | EvPrint (MsgAttachmentNotFound p) => Some p
                 | _ => None
                 end) t.

(** The rows of a job in the table. *)
Definition rows_of (id : string) (table : list Capture) : list Capture :=
  List.filter (fun r => String.eqb (id_capture r) id) table.

(** ** Observations and specifications *)

(** [s'] has the trace of [s] followed by events that satisfy [ok]. *)
Definition adds_only (ok : Event -> Prop) (s s' : State) : Prop :=
  exists evs, trace s' = trace s ++ evs /\ Forall ok evs.

(** A block adds to the trace only events that satisfy [ok]. *)
Definition emits_only (ok : Event -> Prop) {A} (m : M A) : Prop :=
  forall s, adds_only ok s (snd (m s)).

(** Events of the task other than a re-scheduling, a webhook delivery
    and a terminate signal. *)
Definition internal (e : Event) : Prop :=
  match e with
  | EvDelay _ | EvPost _ _ _ | EvTerminate => False
  | _ => True
  end.

(** The sentinel of the deployment exists. *)
Definition sentinel_present (cfg : Config) (s : State) : bool :=
  path_exists (disk s) (DEPLOYMENT_SENTINEL_PATH cfg).

(** Every row of the job of [c] holds the fields of [c], and there is
    such a row. *)
Definition stored (c : Capture) (table : list Capture) : Prop :=
  rows_of (id_capture c) table <> [] /\
  forall r, In r (rows_of (id_capture c) table) -> r = c.

(** What the trace gains from the claim to the spawn, for the capture
    [c] as re-read from the table and the row count of the update. *)
Definition preparation_events (cfg : Config) (port : Z) (c : Capture)
    (rows : nat) : list Event :=
  [ EvUpdateStarted (id_capture c) rows;
    EvGet (id_capture c);
    EvSave (id_capture c);
    EvPrint (MsgMarkedStarted (id_capture c));
    EvMakedirs (storage_path cfg (id_capture c));
    EvPrint (MsgStorageFolder (storage_path cfg (id_capture c)));
    EvMakedirs (attachments_path cfg (id_capture c));
    EvPopen (scoop_args cfg port c) ].

(** The files of a directory, among [filenames], that are not on disk. *)
Definition missing_files (d : gmap string File) (dir : string)
    (filenames : list string) : list string :=
  List.filter (fun p => negb (path_exists d p))
    (List.map (fun f => dir +:+ sep +:+ f) filenames).

(** The filenames of an ["attachments"] mapping, one list: each value is
    a filename or a list of filenames. *)
Definition expected_filenames (atts : list (string * Attachment)) : list string :=
  List.concat
    (List.map (fun kv => match snd kv with
                         | OneFile f => [f]
                         | ManyFiles l => l
                         end) atts).

(** The filenames listed by the summary on disk ([[]] when there is no
    summary with an ["attachments"] mapping). *)
Definition expected_attachments (cfg : Config) (id : string)
    (d : gmap string File) : list string :=
  match d !! json_summary_path cfg id with
  | Some (Regular (Some doc)) =>
      match attachments doc with
      | Some atts => expected_filenames atts
      | None => []
      end
  | _ => []
  end.

(** The four conditions of a successful capture. *)
Definition all_conjuncts (cfg : Config) (id : string) (code : option Z)
    (d : gmap string File) : Prop :=
  code = Some 0%Z /\
  path_exists d (archive_path cfg id) = true /\
  path_exists d (json_summary_path cfg id) = true /\
  forall f, In f (expected_attachments cfg id d) ->
            path_exists d (attachments_path cfg id +:+ sep +:+ f) = true.

(** The attachment files whose absence the check has to report: all the
    missing ones, once the exit code, the archive and the summary have
    passed. *)
Definition missing_attachments (cfg : Config) (id : string) (code : option Z)
    (d : gmap string File) : list string :=
  if bool_decide (code = Some 0%Z)
     && path_exists d (archive_path cfg id)
     && path_exists d (json_summary_path cfg id)
  then missing_files d (attachments_path cfg id) (expected_attachments cfg id d)
  else [].

(** The bound on the wait in milliseconds, when the configuration gives
    the capture timeout as a number. *)
Definition wait_bound (cfg : Config) : option Z :=
  match lookup_option "--capture-timeout" (SCOOP_CLI_OPTIONS cfg) with
  | Some (IntOpt ms) => Some (ms + 1000 * SCOOP_TIMEOUT_FUSE cfg)%Z
  | _ => None
  end.

(** The child is still running when the bound elapses. *)
Definition exceeds (p : Process) (bound : Z) : bool :=
  match lifetime p with
  | Some d => negb (d <=? bound)%Z
  | None => true
  end.

(** What the webhook part of the [finally] clause adds to the trace. *)
Definition webhook_events (env : Env) (c : option Capture) : list Event :=
  match c, callback_of c with
  | Some c, Some u =>
      [EvPrint (MsgCallback u); EvPost u c 10]
      ++ (if post env u then []
          else [EvPrint (MsgCallbackFailed u); EvPrint MsgTraceback])
  | _, _ => []
  end.

(** The cycle takes the port-in-use path: no sentinel, a pending
    capture, and a probe that is not classified as available. *)
Definition port_in_use_path (cfg : Config) (env : Env) (port : Z) (s : State)
  : bool :=
  negb (sentinel_present cfg s)
  && negb (Nat.eqb (length (Table.select_pending (db s))) 0)
  && negb (proxy_port_is_available (head env port)).

(** The classification of the probe as documented: a read timeout is a
    port in use, every other outcome is a free port. *)
Definition documented_port_is_free (r : ProbeResult) : bool :=
  match r with
  | ReadTimeout => false
  | OtherError => true
  | Responded => true
  end.

(** The signals and pauses documented for a child that outlives the
    bound: terminate, five seconds of grace, kill. *)
Definition documented_timeout_supervision : list Event :=
  [EvTerminate; EvSleep 5; EvKill].

(** The environment with another outcome of the webhook delivery. *)
Definition with_post (delivered : string -> bool) (env : Env) : Env :=
  {| head := head env; other_workers := other_workers env;
     popen := popen env; interrupted := interrupted env;
     post := delivered;
     utcnow_started := utcnow_started env; utcnow_ended := utcnow_ended env |}.

(** ** Sample inputs *)

Module Sample.

Definition cfg : Config :=
  {| DEPLOYMENT_SENTINEL_PATH := "/run/deploy/sentinel";
     TEMPORARY_STORAGE_PATH := "/tmp/scoop";
     DOWNGRADE_TO_WARC := false;
     SCOOP_TIMEOUT_FUSE := 5;
     SCOOP_CLI_OPTIONS :=
       [("--capture-timeout", IntOpt 30000); ("--screenshot", StrOpt "true")] |}.

Definition job : Capture :=
  {| id_capture := "7"; url := "https://example.com";
     callback_url := Some "https://hooks.example.com/done";
     status := pending; created_timestamp := 100;
     started_timestamp := None; ended_timestamp := None;
     stdout_logs := None; stderr_logs := None; summary := None |}.

Definition doc : Summary :=
  {| attachments :=
       Some [("certificates", ManyFiles ["cert1.pem"; "cert2.pem"]);
             ("screenshot", OneFile "screenshot.png")] |}.

(** Scoop exits with code 0 after one second and leaves every file. *)
Definition scoop : Process :=
  {| lifetime := Some 1000%Z; returncode := 0;
     stdout := Some "capture done"; stderr := Some "";
     written :=
       [("/tmp/scoop/7/archive.wacz", Regular None);
        ("/tmp/scoop/7/archive.json", Regular (Some doc));
        ("/tmp/scoop/7/attachments/cert1.pem", Regular None);
        ("/tmp/scoop/7/attachments/cert2.pem", Regular None);
        ("/tmp/scoop/7/attachments/screenshot.png", Regular None)] |}.

(** Scoop exits with code 0 but leaves neither [cert1.pem] nor
    [screenshot.png]. *)
Definition scoop_incomplete : Process :=
  {| lifetime := Some 1000%Z; returncode := 0;
     stdout := Some "capture done"; stderr := Some "";
     written :=
       [("/tmp/scoop/7/archive.wacz", Regular None);
        ("/tmp/scoop/7/archive.json", Regular (Some doc));
        ("/tmp/scoop/7/attachments/cert2.pem", Regular None)] |}.

(** Scoop never exits. *)
Definition scoop_hung : Process :=
  {| lifetime := None; returncode := 0;
     stdout := Some "partial output"; stderr := Some "";
     written := [] |}.

(** Scoop exits with the given code. *)
Definition scoop_exit (code : Z) : Process :=
  {| lifetime := Some 1000%Z; returncode := code;
     stdout := Some "capture done"; stderr := Some "";
     written := [] |}.

Definition env_with (probe : ProbeResult) (child : Process) : Env :=
  {| head := fun _ => probe;
     other_workers := fun table => table;
     popen := fun _ => Some child;
     interrupted := false;
     post := fun _ => false;
     utcnow_started := 200;
     utcnow_ended := 300 |}.

Definition env : Env := env_with OtherError scoop.

(** A second worker claims every pending row between the select and
    the update of this one. *)
Definition env_race : Env :=
  {| head := fun _ => OtherError;
     other_workers :=
       List.map (fun r => if Table.is_pending r
                          then set_started_timestamp 150 (set_status started r)
                          else r);
     popen := fun _ => Some scoop;
     interrupted := false;
     post := fun _ => false;
     utcnow_started := 200;
     utcnow_ended := 300 |}.

Definition queue : State :=
  {| db := [job]; disk := ∅; trace := []; capture := None;
     process := None; process_returncode := None |}.

Definition queue_sentinel : State :=
  with_disk {["/run/deploy/sentinel" := Regular None]} queue.

Definition empty_queue : State :=
  {| db := []; disk := ∅; trace := []; capture := None;
     process := None; process_returncode := None |}.

End Sample.

(** ** The application factory, [scoop_witness_api/__init__.py] *)

Module Factory.

(** A value of [app.config]. *)
Inductive Setting :=
| Text (s : string)
| Number (z : Z)
| Flag (b : bool)
| Options (items : list (string * OptionValue)).

(** The [config_override] argument: a dict, given by its items in
    order, or any other value. *)
Inductive Argument :=
| NotADict
| Dict (items : list (string * Setting)).

Inductive Error :=
| KeyError (key : string)
| TypeError
| FileExistsError (path : string)
| ConfigError.

(** The Celery application kept in [app.extensions["celery"]]. *)
Record Celery := { main : string; conf : Setting }.

Record App := {
  name : string;
  config : gmap string Setting;
  extensions : gmap string Celery }.

(** Lines 21-24: a value of the override replaces the value of a key the
    configuration has; other keys are skipped. *)
Definition override (defaults : gmap string Setting) (config_override : Argument)
  : gmap string Setting :=
  match config_override with
  | Dict items =>
      List.fold_left
        (fun config kv =>
           if bool_decide (is_Some (config !! fst kv))
           then <[fst kv := snd kv]> config
           else config)
        items defaults
  | NotADict => defaults
  end.

(** [os.makedirs(path, exist_ok=True)]: an existing directory is
    accepted, an existing regular file is not. *)
Definition makedirs_exist_ok (path : string) (d : gmap string File)
  : Error + gmap string File :=
  match d !! path with
  | None => inr (<[path := Directory]> d)
  | Some Directory => inr d
  | Some (Regular _) => inl (FileExistsError path)
  end.

(** Lines 46-56. *)
Definition celery_init_app (app : App) : Error + App :=
  match config app !! "CELERY" with
  | Some settings =>
      inr {| name := name app; config := config app;
             extensions :=
               <["celery" := {| main := name app; conf := settings |}]>
                 (extensions app) |}
  | None => inl (KeyError "CELERY")
  end.

(** Lines 12-43.  [defaults] is the content of the configuration module
    and [config_check] the check of [utils], [false] when it raises;
    both are parameters of the factory.  The result is the application
    or the exception, with the disk as the call leaves it. *)
Definition create_app (defaults : gmap string Setting)
    (config_check : gmap string Setting -> bool)
    (config_override : Argument) (d : gmap string File)
  : (Error + App) * gmap string File :=
  let app := {| name := "scoop_witness_api";
                config := override defaults config_override;
                extensions := ∅ |} in
  if negb (config_check (config app)) then (inl ConfigError, d)
  else
    match config app !! "TEMPORARY_STORAGE_PATH" with
    | Some (Text path) =>
        match makedirs_exist_ok path d with
        | inr d' => (celery_init_app app, d')
        | inl e => (inl e, d)
        end
    | Some _ => (inl TypeError, d)
    | None => (inl (KeyError "TEMPORARY_STORAGE_PATH"), d)
    end.

End Factory.

(** ** Further observations *)

(** The rows of the table that belong to other captures than [id]. *)
Definition rows_of_others (id : string) (table : list Capture) : list Capture :=
  List.filter (fun r => negb (String.eqb (id_capture r) id)) table.

(** The argument lists of the children spawned, in order. *)
Definition spawned (t : list Event) : list (list string) :=
  omap (fun e => match e with EvPopen args => Some args | _ => None end) t.

(** The reason printed with a failed capture: the exit code, else the
    missing archive, else the missing summary, else nothing. *)
Definition first_reason (cfg : Config) (id : string) (code : option Z)
    (d : gmap string File) : FailedReason :=
  if bool_decide (code = Some 0%Z) then
    if path_exists d (archive_path cfg id) then
      if path_exists d (json_summary_path cfg id) then NoReason
      else NotFound (json_summary_path cfg id)
    else NotFound (archive_path cfg id)
  else ExitCode code.

(** The summary document a path holds, if it parses. *)
Definition summary_at (d : gmap string File) (path : string) : option Summary :=
  match d !! path with
  | Some (Regular (Some doc)) => Some doc
  | _ => None
  end.

(** The check of the results is reached: the timeout of the wait can be
    computed, the wait is not interrupted, the child exits within the
    bound and both of its streams decode. *)
Definition check_reached (cfg : Config) (env : Env) (p : Process) : bool :=
  match wait_bound cfg with
  | Some ms =>
      negb (interrupted env) && negb (exceeds p ms)
      && bool_decide (is_Some (stdout p)) && bool_decide (is_Some (stderr p))
  | None => false
  end.

(** The summary on disk can be read by the check: it parses and has an
    ["attachments"] mapping. *)
Definition summary_usable (cfg : Config) (id : string) (d : gmap string File)
  : bool :=
  match summary_at d (json_summary_path cfg id) with
  | Some doc => bool_decide (is_Some (attachments doc))
  | None => false
  end.

(** The rows of the other captures and the ids of all rows are those of
    [base]. *)
Definition same_frame (base : list Capture) (id : string) (table : list Capture)
  : Prop :=
  rows_of_others id table = rows_of_others id base /\
  List.map id_capture table = List.map id_capture base.

(** The state a cycle leaves when it has picked the capture [id]: the
    capture bound to [capture] has a final status and an end time, and
    it is the last one saved to a table that differs from [base] in the
    rows of [id] only. *)
Definition settled (env : Env) (base : list Capture) (id : string) (s : State)
  : Prop :=
  exists c T,
    capture s = Some c /\
    id_capture c = id /\
    db s = Table.save c T /\
    same_frame base id T /\
    (status c = success \/ status c = failed) /\
    ended_timestamp c = Some (utcnow_ended env).

(** ** More sample inputs *)

Module Scenario.

(** The storage folder of the sample capture is left from an earlier
    run. *)
Definition queue_with_folder : State :=
  with_disk {["/tmp/scoop/7" := Directory]} Sample.queue.

(** The same configuration without the capture timeout. *)
Definition cfg_no_timeout : Config :=
  {| DEPLOYMENT_SENTINEL_PATH := "/run/deploy/sentinel";
     TEMPORARY_STORAGE_PATH := "/tmp/scoop";
     DOWNGRADE_TO_WARC := false;
     SCOOP_TIMEOUT_FUSE := 5;
     SCOOP_CLI_OPTIONS := [("--screenshot", StrOpt "true")] |}.

(** The wait for the child is interrupted. *)
Definition env_interrupted : Env :=
  {| head := fun _ => OtherError;
     other_workers := fun table => table;
     popen := fun _ => Some Sample.scoop;
     interrupted := true;
     post := fun _ => true;
     utcnow_started := 200;
     utcnow_ended := 300 |}.

(** The child cannot be spawned. *)
Definition env_no_spawn : Env :=
  {| head := fun _ => OtherError;
     other_workers := fun table => table;
     popen := fun _ => None;
     interrupted := false;
     post := fun _ => true;
     utcnow_started := 200;
     utcnow_ended := 300 |}.

(** A second capture, already finished, next to the sample one. *)
Definition finished : Capture :=
  {| id_capture := "3"; url := "https://example.org";
     callback_url := None;
     status := success; created_timestamp := 50;
     started_timestamp := Some 60%Z; ended_timestamp := Some 70%Z;
     stdout_logs := Some "ok"; stderr_logs := Some ""; summary := None |}.

Definition two_rows : State :=
  with_db [finished; Sample.job] Sample.queue.

(** A table without pending capture. *)
Definition one_finished : State :=
  with_db [finished] Sample.queue.

(** Scoop exits with code 0 and leaves every file, but its standard
    output is not UTF-8. *)
Definition scoop_undecodable : Process :=
  {| lifetime := Some 1000%Z; returncode := 0;
     stdout := None; stderr := Some "";
     written := written Sample.scoop |}.

(** Scoop exits with code 0 and leaves every file, but the summary is
    not JSON. *)
Definition scoop_bad_summary : Process :=
  {| lifetime := Some 1000%Z; returncode := 0;
     stdout := Some "capture done"; stderr := Some "";
     written :=
       [("/tmp/scoop/7/archive.wacz", Regular None);
        ("/tmp/scoop/7/archive.json", Regular None)] |}.

Definition defaults : gmap string Factory.Setting :=
  {[ "TEMPORARY_STORAGE_PATH" := Factory.Text "/tmp/scoop";
     "DOWNGRADE_TO_WARC" := Factory.Flag false;
     "CELERY" := Factory.Options [] ]}.

Definition accept_all (config : gmap string Factory.Setting) : bool := true.

End Scenario.

(** ** Running statements *)

Lemma run_bind {A B} (m : M A) (f : A -> M B) (s : State) :
  (m ≫= f) s =
  match m s with
  | (Normal a, s') => f a s'
  | (Return, s') => (Return, s')
  | (Raise e, s') => (Raise e, s')
  end.
Proof. reflexivity. Qed.

Lemma run_bind_normal {A B} (m : M A) (f : A -> M B) s a s' :
  m s = (Normal a, s') -> (m ≫= f) s = f a s'.
Proof. intros H. rewrite run_bind, H. reflexivity. Qed.

Lemma run_bind_return {A B} (m : M A) (f : A -> M B) s s' :
  m s = (Return, s') -> (m ≫= f) s = (Return, s').
Proof. intros H. rewrite run_bind, H. reflexivity. Qed.

Lemma run_bind_raise {A B} (m : M A) (f : A -> M B) s e s' :
  m s = (Raise e, s') -> (m ≫= f) s = (Raise e, s').
Proof. intros H. rewrite run_bind, H. reflexivity. Qed.

(** ** Which events a block may add to the trace *)

Section Frames.

Context (ok : Event -> Prop).

Lemma adds_only_refl s : adds_only ok s s.
Proof. exists []. split; [by rewrite app_nil_r | constructor]. Qed.

Lemma adds_only_trans s1 s2 s3 :
  adds_only ok s1 s2 -> adds_only ok s2 s3 -> adds_only ok s1 s3.
Proof.
  intros (e1 & H1 & F1) (e2 & H2 & F2). exists (e1 ++ e2). split.
  - rewrite H2, H1. by rewrite <- app_assoc.
  - apply Forall_app; auto.
Qed.

Lemma adds_only_same_trace s s' : trace s' = trace s -> adds_only ok s s'.
Proof. intros H. exists []. split; [by rewrite app_nil_r | constructor]. Qed.

Lemma emits_only_bind {A B} (m : M A) (f : A -> M B) :
  emits_only ok m -> (forall a, emits_only ok (f a)) -> emits_only ok (m ≫= f).
Proof.
  intros Hm Hf s. rewrite run_bind. specialize (Hm s).
  destruct (m s) as [[a| |e] s']; simpl in *; auto.
  eapply adds_only_trans; [exact Hm | apply Hf].
Qed.

Lemma emits_only_ret {A} (a : A) : emits_only ok (mret a).
Proof. intros s. apply adds_only_refl. Qed.

Lemma emits_only_pass : emits_only ok pass.
Proof. intros s. apply adds_only_refl. Qed.

Lemma emits_only_return {A} : emits_only ok (@early_return A).
Proof. intros s. apply adds_only_refl. Qed.

Lemma emits_only_raise {A} e : emits_only ok (@raise A e).
Proof. intros s. apply adds_only_refl. Qed.

Lemma emits_only_or_raise {A} e (o : option A) : emits_only ok (or_raise e o).
Proof. destruct o; intros s; apply adds_only_refl. Qed.

Lemma emits_only_reads {A} (f : State -> A) : emits_only ok (reads f).
Proof. intros s. apply adds_only_refl. Qed.

Lemma emits_only_modify f :
  (forall s, trace (f s) = trace s) -> emits_only ok (modify f).
Proof. intros H s. apply adds_only_same_trace, H. Qed.

Lemma emits_only_emit e : ok e -> emits_only ok (emit e).
Proof.
  intros H s. exists [e]. split; [reflexivity | by repeat constructor].
Qed.

Lemma emits_only_print m : ok (EvPrint m) -> emits_only ok (print m).
Proof. apply emits_only_emit. Qed.

Lemma emits_only_if {A} (b : bool) (m1 m2 : M A) :
  emits_only ok m1 -> emits_only ok m2 -> emits_only ok (if b then m1 else m2).
Proof. by destruct b. Qed.

End Frames.

(** Decomposes a block into its statements and closes the goals on the
    primitive ones; [known] closes the goals on blocks that have their
    own lemma.  What is left are the events the block emits. *)
Ltac frame_step :=
  first
    [ apply emits_only_ret
    | apply emits_only_pass
    | apply emits_only_return
    | apply emits_only_raise
    | apply emits_only_or_raise
    | apply emits_only_reads
    | apply emits_only_modify; reflexivity
    | apply emits_only_print
    | apply emits_only_emit
    | match goal with
      | |- emits_only _ (if ?b then _ else _) => destruct b
      | |- emits_only _ (match ?x with _ => _ end) => destruct x
      end
    | apply emits_only_bind; [| intros ? ] ].

Tactic Notation "frame" "using" tactic3(known) :=
  repeat first [ progress cbv beta | solve [known] | frame_step ].

Tactic Notation "frame" := frame using fail.

Section BlockFrames.

Context (cfg : Config) (env : Env) (ok : Event -> Prop).
Hypothesis ok_print : forall m, ok (EvPrint m).
Hypothesis ok_save : forall id, ok (EvSave id).

Lemma emits_only_assign f : emits_only ok (assign f).
Proof. unfold assign. frame. Qed.

Lemma emits_only_save_capture : emits_only ok save_capture.
Proof. unfold save_capture. frame; auto. Qed.

Lemma emits_only_mark_failed : emits_only ok (mark_failed env).
Proof.
  unfold mark_failed.
  frame using
    first [apply emits_only_assign | apply emits_only_save_capture].
Qed.

Lemma emits_only_check_files dir filenames success :
  emits_only ok (check_files dir filenames success).
Proof.
  revert success. induction filenames as [|f rest IH]; intros success; simpl.
  - frame.
  - frame using (apply IH). apply ok_print.
Qed.

Lemma emits_only_check_summary id : emits_only ok (check_summary cfg id).
Proof.
  unfold check_summary.
  frame using
    first [apply emits_only_assign | apply emits_only_check_files].
Qed.

Lemma emits_only_check_capture_results id code :
  emits_only ok (check_capture_results cfg env id code).
Proof.
  unfold check_capture_results.
  frame using
    first [ apply emits_only_assign | apply emits_only_check_summary
          | apply emits_only_save_capture ];
    apply ok_print.
Qed.

Lemma emits_only_except_Exception : emits_only ok (except_Exception env).
Proof.
  unfold except_Exception. frame using (apply emits_only_mark_failed);
    apply ok_print.
Qed.

Lemma emits_only_except_bare : emits_only ok (except_bare env).
Proof.
  unfold except_bare.
  frame using
    first [apply emits_only_assign | apply emits_only_save_capture];
    apply ok_print.
Qed.

End BlockFrames.

Section InternalFrames.

Context (cfg : Config) (env : Env).

Let internal_print : forall m, internal (EvPrint m) := fun _ => I.
Let internal_save : forall id, internal (EvSave id) := fun _ => I.

Lemma internal_except_TimeoutExpired :
  emits_only internal (except_TimeoutExpired env).
Proof.
  unfold except_TimeoutExpired.
  frame using (apply emits_only_mark_failed; assumption); exact I.
Qed.

Lemma internal_except_Exception : emits_only internal (except_Exception env).
Proof. apply emits_only_except_Exception; assumption. Qed.

Lemma internal_except_bare : emits_only internal (except_bare env).
Proof. apply emits_only_except_bare; assumption. Qed.

Lemma internal_communicate p ms : emits_only internal (communicate env p ms).
Proof. unfold communicate. frame; exact I. Qed.

Lemma internal_finish_capture c0 p :
  emits_only internal (finish_capture cfg env c0 p).
Proof.
  unfold finish_capture, communicate_timeout.
  frame using
    first [ apply emits_only_assign
          | apply internal_communicate
          | apply emits_only_check_capture_results; assumption ];
    exact I.
Qed.

Lemma internal_mark_started c0 : emits_only internal (mark_started env c0).
Proof.
  unfold mark_started.
  frame using
    first [ apply emits_only_assign
          | apply emits_only_save_capture; assumption ];
    exact I.
Qed.

Lemma internal_makedirs path : emits_only internal (makedirs path).
Proof. unfold makedirs. frame; exact I. Qed.

Lemma internal_spawn args : emits_only internal (spawn env args).
Proof. unfold spawn. frame; exact I. Qed.

Lemma internal_claim_and_spawn port c0 :
  emits_only internal (claim_and_spawn cfg env port c0).
Proof.
  unfold claim_and_spawn.
  frame using
    first [ apply internal_mark_started | apply internal_makedirs
          | apply internal_spawn ];
    exact I.
Qed.

End InternalFrames.

(** Runs the statements of a block as far as the state allows. *)
Ltac run :=
  cbv beta iota delta
    [mbind M_bind mret M_ret reads modify emit print pass early_return raise
     or_raise];
  cbn [fst snd db disk trace capture process process_returncode
       with_db with_disk with_trace with_capture with_process
       with_process_returncode].

Tactic Notation "run" "in" hyp(H) :=
  cbv beta iota delta
    [mbind M_bind mret M_ret reads modify emit print pass early_return raise
     or_raise] in H;
  cbn [fst snd db disk trace capture process process_returncode
       with_db with_disk with_trace with_capture with_process
       with_process_returncode] in H.

(** ** The paths through [begin_capture] *)

Section Paths.

Context (cfg : Config) (env : Env).

Lemma begin_capture_sentinel port s :
  sentinel_present cfg s = true ->
  begin_capture cfg env port s
  = (Return, with_trace (trace s ++ [EvPrint MsgSentinel]) s).
Proof.
  intros H. unfold sentinel_present in H.
  unfold begin_capture, check_sentinel. run. rewrite H. reflexivity.
Qed.

Lemma begin_capture_idle port s :
  sentinel_present cfg s = false ->
  Table.select_pending (db s) = [] ->
  begin_capture cfg env port s
  = (Return, with_trace (trace s ++ [EvSelectPending]) s).
Proof.
  intros H Hq. unfold sentinel_present in H.
  unfold begin_capture, check_sentinel, pull_pending, check_proxy_port.
  run. rewrite H, Hq. reflexivity.
Qed.

Lemma begin_capture_busy port s :
  sentinel_present cfg s = false ->
  Table.select_pending (db s) <> [] ->
  proxy_port_is_available (head env port) = false ->
  begin_capture cfg env port s
  = (Return,
     with_trace
       (trace s ++ [EvSelectPending; EvHead port 1;
                    EvPrint (MsgPortInUse port); EvDelay (port + 1)]) s).
Proof.
  intros H Hq Hp. unfold sentinel_present in H.
  unfold begin_capture, check_sentinel, pull_pending, check_proxy_port.
  run. rewrite H, Hp.
  destruct (Table.select_pending (db s)) as [|c0 rest]; [done|].
  cbn. unfold with_trace; cbn. by rewrite <- !app_assoc.
Qed.

Lemma begin_capture_free port s c0 rest :
  sentinel_present cfg s = false ->
  Table.select_pending (db s) = c0 :: rest ->
  proxy_port_is_available (head env port) = true ->
  begin_capture cfg env port s
  = claim_and_spawn cfg env port c0
      (with_trace (trace s ++ [EvSelectPending; EvHead port 1]) s).
Proof.
  intros H Hq Hp. unfold sentinel_present in H.
  unfold begin_capture, check_sentinel, pull_pending, check_proxy_port.
  run. rewrite H, Hq, Hp. cbn. unfold with_trace; cbn.
  by rewrite <- !app_assoc.
Qed.

End Paths.

(** ** Rows of the table *)

Lemma rows_of_save c table :
  rows_of (id_capture c) (Table.save c table)
  = List.map (fun _ => c) (rows_of (id_capture c) table).
Proof.
  unfold rows_of, Table.save. induction table as [|r rest IH]; [done|].
  simpl. destruct (String.eqb (id_capture r) (id_capture c)) eqn:E; simpl.
  - rewrite String.eqb_refl. simpl. by rewrite IH.
  - rewrite E. exact IH.
Qed.

Lemma save_stored c table :
  rows_of (id_capture c) table <> [] -> stored c (Table.save c table).
Proof.
  intros Hne. unfold stored. rewrite rows_of_save. split.
  - destruct (rows_of (id_capture c) table); [done | discriminate].
  - intros r Hr. apply in_map_iff in Hr as (? & ? & ?). congruence.
Qed.

Lemma rows_of_save_nonempty c id table :
  rows_of id table <> [] -> rows_of id (Table.save c table) <> [].
Proof.
  unfold rows_of, Table.save. induction table as [|r rest IH]; [done|].
  simpl. destruct (String.eqb (id_capture r) id) eqn:E.
  - intros _. destruct (String.eqb (id_capture r) (id_capture c)) eqn:E2; simpl.
    + apply String.eqb_eq in E, E2.
      assert (String.eqb (id_capture c) id = true) as ->
        by (apply String.eqb_eq; congruence).
      discriminate.
    + rewrite E. discriminate.
  - intros H. specialize (IH H).
    destruct (String.eqb (id_capture r) (id_capture c)) eqn:E2; simpl.
    + destruct (String.eqb (id_capture c) id); [discriminate | exact IH].
    + by rewrite E.
Qed.

Lemma get_Some id table r :
  Table.get id table = Some r ->
  id_capture r = id /\ rows_of id table <> [].
Proof.
  unfold Table.get, rows_of. intros H.
  pose proof (find_some _ _ H) as [Hin Heq]. split.
  - by apply String.eqb_eq.
  - intros Hnil.
    assert (In r (List.filter (fun r => String.eqb (id_capture r) id) table))
      as Hr by (apply filter_In; auto).
    rewrite Hnil in Hr. destruct Hr.
Qed.

Lemma stored_status c table v :
  stored c table -> status c = v ->
  Forall (fun r => status r = v) (rows_of (id_capture c) table).
Proof.
  intros [_ H] Hv. apply List.Forall_forall. intros r Hr.
  by rewrite (H r Hr).
Qed.

(** ** The state in which Scoop has been spawned *)

Lemma bind_Normal_inv {A B} (m : M A) (f : A -> M B) s b s' :
  (m ≫= f) s = (Normal b, s') ->
  exists a s1, m s = (Normal a, s1) /\ f a s1 = (Normal b, s').
Proof.
  rewrite run_bind. destruct (m s) as [[a| |e] s1]; try discriminate.
  intros H. by exists a, s1.
Qed.

Lemma mark_started_Normal env c0 s s' :
  mark_started env c0 s = (Normal tt, s') ->
  exists c rows,
    capture s' = Some c /\
    id_capture c = id_capture c0 /\
    started_timestamp c = Some (utcnow_started env) /\
    stored c (db s') /\
    process s' = process s /\
    process_returncode s' = process_returncode s /\
    trace s'
    = trace s ++ [EvUpdateStarted (id_capture c) rows; EvGet (id_capture c);
                  EvSave (id_capture c);
                  EvPrint (MsgMarkedStarted (id_capture c))].
Proof.
  unfold mark_started, assign, save_capture. intros H. run in H.
  destruct (Table.get _ _) as [fresh|] eqn:G; run in H; [|discriminate].
  cbn [fmap option_fmap option_map] in H. run in H.
  injection H as <-. apply get_Some in G as [Hid Hrows].
  exists (set_started_timestamp (utcnow_started env) fresh), 
    (snd (Table.update_started (id_capture c0) (other_workers env (db s)))).
  pose proof (save_stored
    (set_started_timestamp (utcnow_started env) fresh)) as St.
  cbn in St. rewrite Hid in St. specialize (St _ Hrows).
  cbn. rewrite Hid. repeat split; auto; try apply St.
  by rewrite <- !app_assoc.
Qed.

Lemma makedirs_Normal path s s' :
  makedirs path s = (Normal tt, s') ->
  db s' = db s /\ capture s' = capture s /\ process s' = process s /\
  process_returncode s' = process_returncode s /\
  trace s' = trace s ++ [EvMakedirs path].
Proof.
  unfold makedirs. intros H. run in H.
  destruct (path_exists _ _); run in H; [discriminate|].
  by injection H as <-.
Qed.

Lemma spawn_Normal env args s p s' :
  spawn env args s = (Normal p, s') ->
  popen env args = Some p /\
  db s' = db s /\ capture s' = capture s /\ process s' = Some p /\
  process_returncode s' = None /\
  trace s' = trace s ++ [EvPopen args].
Proof.
  unfold spawn. intros H. run in H.
  destruct (popen env args) as [q|]; run in H; [|discriminate].
  by injection H as <- <-.
Qed.

Lemma claim_and_spawn_Normal cfg env port c0 s job s' :
  claim_and_spawn cfg env port c0 s = (Normal job, s') ->
  exists c rows,
    fst job = c0 /\
    capture s' = Some c /\
    id_capture c = id_capture c0 /\
    started_timestamp c = Some (utcnow_started env) /\
    stored c (db s') /\
    process s' = Some (snd job) /\
    process_returncode s' = None /\
    popen env (scoop_args cfg port c) = Some (snd job) /\
    trace s' = trace s ++ preparation_events cfg port c rows.
Proof.
  unfold claim_and_spawn. intros H.
  apply bind_Normal_inv in H as ([] & s1 & H1 & H).
  apply bind_Normal_inv in H as ([] & s2 & Hm & H).
  apply bind_Normal_inv in H as ([] & s3 & Hd1 & H).
  apply bind_Normal_inv in H as ([] & s4 & Hp & H).
  apply bind_Normal_inv in H as ([] & s5 & Hd2 & H).
  apply bind_Normal_inv in H as (oc & s6 & Hr & H).
  apply bind_Normal_inv in H as (c & s7 & Hc & H).
  apply bind_Normal_inv in H as (p & s8 & Hs & H).
  run in H. injection H as <- <-.
  run in H1. injection H1 as <-.
  apply mark_started_Normal in Hm as (c' & rows & Hcap & Hid & Hts & Hst & _ & _ & Ht2).
  apply makedirs_Normal in Hd1 as (Hdb1 & Hcap1 & _ & _ & Ht3).
  run in Hp. injection Hp as <-.
  apply makedirs_Normal in Hd2 as (Hdb2 & Hcap2 & _ & _ & Ht5).
  cbn in Hdb2, Hcap2, Ht5.
  run in Hr. injection Hr as <- <-.
  rewrite Hcap2, Hcap1, Hcap in Hc. run in Hc. injection Hc as <- <-.
  apply spawn_Normal in Hs as (Hpo & Hdb8 & Hcap8 & Hpr & Hrc & Ht8).
  exists c', rows. cbn. repeat split; try done.
  - by rewrite Hcap8, Hcap2, Hcap1.
  - rewrite Hdb8, Hdb2, Hdb1. apply Hst.
  - rewrite Hdb8, Hdb2, Hdb1. apply Hst.
  - rewrite Ht8, Ht5, Ht3, Ht2. cbn. unfold preparation_events.
    rewrite <- Hid. by rewrite <- !app_assoc.
Qed.

Lemma begin_capture_Normal cfg env port s job s' :
  begin_capture cfg env port s = (Normal job, s') ->
  exists c rows,
    In (fst job) (Table.select_pending (db s)) /\
    proxy_port_is_available (head env port) = true /\
    capture s' = Some c /\
    id_capture c = id_capture (fst job) /\
    started_timestamp c = Some (utcnow_started env) /\
    stored c (db s') /\
    process s' = Some (snd job) /\
    process_returncode s' = None /\
    popen env (scoop_args cfg port c) = Some (snd job) /\
    trace s'
    = trace s ++ [EvSelectPending; EvHead port 1]
      ++ preparation_events cfg port c rows.
Proof.
  intros H.
  destruct (sentinel_present cfg s) eqn:Hs.
  { rewrite begin_capture_sentinel in H by done. discriminate. }
  destruct (Table.select_pending (db s)) as [|c0 rest] eqn:Hq.
  { rewrite begin_capture_idle in H by done. discriminate. }
  destruct (proxy_port_is_available (head env port)) eqn:Hp.
  - rewrite (begin_capture_free cfg env port s c0 rest) in H by done.
    apply claim_and_spawn_Normal in H
      as (c & rows & Hj & H1 & H2 & H3 & H4 & H5 & H6 & H7 & H8).
    exists c, rows. rewrite Hj. cbn in H8.
    repeat split; try done; try apply H4; [by left|].
    by rewrite H8, <- app_assoc.
  - rewrite begin_capture_busy in H; [discriminate|done| |done].
    by rewrite Hq.
Qed.

(** ** Checking the results *)

Lemma check_files_run dir filenames success s :
  check_files dir filenames success s
  = (Normal (success &&
             forallb (fun f => path_exists (disk s) (dir +:+ sep +:+ f)) filenames),
     with_trace
       (trace s ++
        List.map (fun p => EvPrint (MsgAttachmentNotFound p))
          (missing_files (disk s) dir filenames)) s).
Proof.
  revert success s. induction filenames as [|f rest IH]; intros success s.
  - cbn. rewrite andb_true_r, app_nil_r. by destruct s.
  - cbn [check_files]. run. unfold missing_files. cbn [List.map List.filter forallb].
    destruct (path_exists (disk s) (dir +:+ sep +:+ f)) eqn:E; cbn [negb].
    + rewrite IH. by rewrite andb_true_l.
    + run. rewrite IH. cbn. rewrite andb_false_r.
      unfold with_trace; cbn. by rewrite <- app_assoc.
Qed.

Lemma check_summary_run cfg id s :
  check_summary cfg id s
  = match disk s !! json_summary_path cfg id with
    | Some (Regular (Some doc)) =>
        let s1 := with_capture (set_summary doc <$> capture s) s in
        match attachments doc with
        | Some atts =>
            check_files (attachments_path cfg id) (filenames_to_check atts) true s1
        | None => (Raise OtherException, s1)
        end
    | _ => (Raise OtherException, s)
    end.
Proof.
  unfold check_summary, assign. run.
  destruct (disk s !! json_summary_path cfg id) as [[|[doc|]]|]; try reflexivity.
  run. destruct (attachments doc); reflexivity.
Qed.

Lemma filenames_to_check_flat atts :
  filenames_to_check atts = expected_filenames atts.
Proof.
  unfold filenames_to_check, expected_filenames.
  assert (forall l acc,
    List.fold_left
      (fun acc filename =>
         match filename with
         | ManyFiles l => acc ++ l
         | OneFile f => acc ++ [f]
         end) (List.map snd l) acc
    = acc ++ List.concat
        (List.map (fun kv : string * Attachment =>
                     match snd kv with
                     | OneFile f => [f]
                     | ManyFiles l => l
                     end) l)) as G.
  { induction l as [|[k v] l IH]; intros acc; cbn.
    - by rewrite app_nil_r.
    - rewrite IH. destruct v; cbn; by rewrite <- app_assoc. }
  apply (G atts []).
Qed.

Lemma reported_missing_app t1 t2 :
  reported_missing (t1 ++ t2) = reported_missing t1 ++ reported_missing t2.
Proof. apply omap_app. Qed.

Lemma reported_missing_prints l :
  reported_missing (List.map (fun p => EvPrint (MsgAttachmentNotFound p)) l) = l.
Proof.
  unfold reported_missing. induction l as [|p l IH]; [done|].
  cbn. f_equal. exact IH.
Qed.

Lemma check_capture_results_outcome cfg env id code s c :
  capture s = Some c ->
  exists c' s' r,
    check_capture_results cfg env id code s = (r, s') /\
    capture s' = Some c' /\
    id_capture c' = id_capture c /\
    stdout_logs c' = stdout_logs c /\
    stderr_logs c' = stderr_logs c /\
    status c' <> pending /\ status c' <> started /\
    disk s' = disk s /\
    ((r = Normal tt /\
      db s' = Table.save c' (db s) /\
      (status c' = success <-> all_conjuncts cfg id code (disk s)) /\
      ended_timestamp c' = Some (utcnow_ended env) /\
      reported_missing (trace s')
      = reported_missing (trace s) ++ missing_attachments cfg id code (disk s))
     \/
     (r = Raise OtherException /\ db s' = db s)).
Proof.
  intros Hc. unfold check_capture_results, assign, save_capture.
  run. rewrite Hc. cbn [fmap option_fmap option_map].
  unfold all_conjuncts, missing_attachments.
  destruct (bool_decide (code = Some 0%Z)) eqn:Hcode.
  2: { run. cbn [fmap option_fmap option_map]. run.
       apply bool_decide_eq_false_1 in Hcode.
       eexists _, _, _. split; [reflexivity|]. cbn.
       split; [reflexivity|]. repeat (split; [done|]).
       left. repeat split; try done.
       - by intros [? _].
       - rewrite !reported_missing_app. cbn. by rewrite !app_nil_r. }
  rewrite bool_decide_eq_false_2
    by (apply bool_decide_eq_true_1 in Hcode; naive_solver).
  apply bool_decide_eq_true_1 in Hcode. run.
  destruct (path_exists (disk s) (archive_path cfg id)) eqn:Ha.
  2: { cbn [negb andb reason_set]. run. cbn [fmap option_fmap option_map]. run.
       eexists _, _, _. split; [reflexivity|]. cbn.
       split; [reflexivity|]. repeat (split; [done|]).
       left. repeat split; try done.
       - by intros (_ & ? & _).
       - rewrite !reported_missing_app. cbn. by rewrite !app_nil_r. }
  destruct (path_exists (disk s) (json_summary_path cfg id)) eqn:Hj.
  2: { cbn [negb andb reason_set]. run. cbn [fmap option_fmap option_map]. run.
       eexists _, _, _. split; [reflexivity|]. cbn.
       split; [reflexivity|]. repeat (split; [done|]).
       left. repeat split; try done.
       - by intros (_ & _ & ? & _).
       - rewrite !reported_missing_app. cbn. by rewrite !app_nil_r. }
  cbn [negb andb reason_set]. run.
  rewrite check_summary_run. cbn [disk with_capture capture].
  unfold expected_attachments.
  destruct (disk s !! json_summary_path cfg id) as [[|[doc|]]|] eqn:Hf;
    try (eexists _, _, _; split; [reflexivity|]; cbn;
         split; [reflexivity|]; repeat (split; [done|]);
         right; by split).
  destruct (attachments doc) as [atts|] eqn:Hatts;
    try (eexists _, _, _; split; [reflexivity|]; cbn;
         split; [reflexivity|]; repeat (split; [done|]);
         right; by split).
  rewrite check_files_run. cbn [fmap option_fmap option_map]. run.
  rewrite filenames_to_check_flat. cbn [andb].
  destruct (forallb _ (expected_filenames atts)) eqn:Hall;
    run; cbn [fmap option_fmap option_map]; run;
    (eexists _, _, _; split; [reflexivity|]; cbn;
     split; [reflexivity|]; repeat (split; [done|]);
     left; repeat split; try done).
  - intros f Hin. rewrite forallb_forall in Hall. by apply Hall.
  - rewrite !reported_missing_app, reported_missing_prints. cbn.
    by rewrite !app_nil_r.
  - intros (_ & _ & _ & Hfs).
    assert (forallb
      (fun f => path_exists (disk s) (attachments_path cfg id +:+ sep +:+ f))
      (expected_filenames atts) = true) as E
      by (apply forallb_forall; exact Hfs).
    congruence.
  - rewrite !reported_missing_app, reported_missing_prints. cbn.
    by rewrite !app_nil_r.
Qed.

(** ** Waiting for the child *)

Lemma finish_capture_run cfg env c0 p s :
  finish_capture cfg env c0 p s
  = match wait_bound cfg with
    | Some ms =>
        let s1 := with_trace (trace s ++ [EvCommunicate ms]) s in
        if interrupted env then (Raise KeyboardInterrupt, s1)
        else if exceeds p ms then (Raise TimeoutExpired, s1)
        else
          let s2 :=
            with_process_returncode (Some (returncode p))
              (with_disk (list_to_map (written p) ∪ disk s) s1) in
          match stdout p with
          | Some out =>
              let s3 := with_capture (set_stdout_logs out <$> capture s) s2 in
              match stderr p with
              | Some err =>
                  check_capture_results cfg env (id_capture c0)
                    (Some (returncode p))
                    (with_capture
                       (set_stderr_logs err <$> (set_stdout_logs out <$> capture s))
                       s3)
              | None => (Raise OtherException, s3)
              end
          | None => (Raise OtherException, s2)
          end
    | None => (Raise OtherException, s)
    end.
Proof.
  unfold finish_capture, communicate_timeout, wait_bound, exceeds, communicate,
    assign.
  destruct (lookup_option _ _) as [[ms|]|]; run; try reflexivity.
  destruct (interrupted env); run; [reflexivity|].
  destruct (lifetime p) as [d|]; run; [|reflexivity].
  destruct (d <=? ms + 1000 * SCOOP_TIMEOUT_FUSE cfg)%Z; run; [|reflexivity].
  cbn [negb].
  destruct (stdout p) as [out|]; run; [|reflexivity].
  destruct (stderr p) as [err|]; run; reflexivity.
Qed.

(** The pause and the kill of lines 200-203 are never executed: once
    [communicate] has returned, [poll] gives the exit code.  Waiting for
    the child and checking its results sends no signal and never
    pauses. *)
Lemma finish_capture_never_pauses cfg env c0 p :
  emits_only (fun e => supervision [e] = []) (finish_capture cfg env c0 p).
Proof.
  intros s. rewrite finish_capture_run.
  assert (forall s', trace s' = trace s ->
            adds_only (fun e => supervision [e] = []) s
              (with_trace (trace s' ++ [EvCommunicate
                 (default 0%Z (wait_bound cfg))]) s')) as Hcomm.
  { intros s' E. exists [EvCommunicate (default 0%Z (wait_bound cfg))].
    cbn. rewrite E. split; [done|]. by repeat constructor. }
  destruct (wait_bound cfg) as [ms|]; cbn zeta; [|apply adds_only_refl].
  cbn [default] in Hcomm.
  destruct (interrupted env); [by apply Hcomm|].
  destruct (exceeds p ms); [by apply Hcomm|].
  destruct (stdout p) as [out|]; [|by apply (Hcomm s)].
  destruct (stderr p) as [err|]; [|by apply (Hcomm s)].
  eapply adds_only_trans;
    [|apply emits_only_check_capture_results; intros; reflexivity].
  by apply (Hcomm s).
Qed.

(** ** The [except] clauses *)

Lemma except_clauses_Raise env e s c :
  capture s = Some c ->
  exists c',
    let s' := snd (except_clauses env (Raise e) s) in
    capture s' = Some c' /\
    status c' = failed /\
    id_capture c' = id_capture c /\
    stdout_logs c' = stdout_logs c /\
    stderr_logs c' = stderr_logs c /\
    ended_timestamp c' = Some (utcnow_ended env) /\
    db s' = Table.save c' (db s) /\
    disk s' = disk s /\
    supervision (trace s')
    = supervision (trace s) ++
      match e, process s with
      | TimeoutExpired, Some _ => [EvKill]
      | _, _ => []
      end.
Proof.
  intros Hc.
  destruct e; cbn [except_clauses];
    unfold except_TimeoutExpired, except_Exception, except_bare, mark_failed,
      assign, save_capture;
    repeat progress (run; rewrite ?Hc; cbn [fmap option_fmap option_map]).
  - destruct (process s); run;
      (eexists; cbn; repeat split; try reflexivity);
      unfold supervision; rewrite !List.filter_app; cbn; by rewrite ?app_nil_r.
  - eexists; cbn; repeat split; try reflexivity.
    unfold supervision; rewrite !List.filter_app; cbn; by rewrite ?app_nil_r.
  - destruct (bool_decide (status c ≠ failed)) eqn:E;
      repeat progress (run; rewrite ?Hc; cbn [fmap option_fmap option_map]);
      (eexists; cbn; repeat split; try reflexivity);
      try (unfold supervision; rewrite !List.filter_app; cbn; by rewrite ?app_nil_r).
    apply bool_decide_eq_false_1 in E.
    destruct (decide (status c = failed)); [done|]. by destruct E.
Qed.

(** After an [except] clause: the capture is stored as [failed], the
    disk is the same and no attachment has been reported. *)
Lemma except_clauses_failed env e s c :
  capture s = Some c ->
  rows_of (id_capture c) (db s) <> [] ->
  let s' := snd (except_clauses env (Raise e) s) in
  rows_of (id_capture c) (db s') <> [] /\
  Forall (fun r => status r = failed) (rows_of (id_capture c) (db s')) /\
  disk s' = disk s /\
  reported_missing (trace s') = reported_missing (trace s).
Proof.
  intros Hc Hne.
  destruct (except_clauses_Raise env e s c Hc)
    as (c' & _ & Hf & Hid & _ & _ & _ & Hdb & Hd & _).
  cbn zeta in *. rewrite Hdb, <- Hid.
  destruct (save_stored c' (db s)) as [N A]; [by rewrite Hid|].
  repeat split; try done.
  - apply List.Forall_forall. intros r Hr. by rewrite (A r Hr).
  - destruct e; cbn [except_clauses];
      unfold except_TimeoutExpired, except_Exception, except_bare, mark_failed,
        assign, save_capture;
      repeat progress (run; rewrite ?Hc; cbn [fmap option_fmap option_map]).
    + destruct (process s); run; rewrite !reported_missing_app; cbn;
        by rewrite ?app_nil_r.
    + rewrite !reported_missing_app; cbn; by rewrite ?app_nil_r.
    + destruct (bool_decide (status c ≠ failed));
        repeat progress (run; rewrite ?Hc; cbn [fmap option_fmap option_map]);
        rewrite !reported_missing_app; cbn; by rewrite ?app_nil_r.
Qed.

Lemma reported_missing_preparation cfg port c rows :
  reported_missing (preparation_events cfg port c rows) = [].
Proof. reflexivity. Qed.

Lemma expected_attachments_summary_at cfg id d :
  expected_attachments cfg id d
  = match summary_at d (json_summary_path cfg id) with
    | Some doc =>
        match attachments doc with
        | Some atts => expected_filenames atts
        | None => []
        end
    | None => []
    end.
Proof.
  unfold expected_attachments, summary_at.
  by destruct (d !! json_summary_path cfg id) as [[|[doc|]]|].
Qed.

(** ** The [finally] clause and the whole cycle *)

Lemma finally_block_run env port s :
  finally_block env port s
  = (Return,
     with_trace (trace s ++ webhook_events env (capture s) ++ [EvDelay port]) s).
Proof.
  unfold finally_block, webhook_events. run.
  destruct (capture s) as [c|]; [|by destruct s].
  destruct (callback_of (Some c)) as [u|]; [|by destruct s].
  run. destruct (post env u); run; unfold with_trace; cbn;
    by rewrite <- ?app_assoc.
Qed.

Lemma start_capture_process_accepted cfg env port s :
  port_rejected (Some port) = false ->
  start_capture_process cfg env (Some port) s
  = let s1 := try_except cfg env port (enter s) in
    with_trace (trace s1 ++ webhook_events env (capture s1) ++ [EvDelay port]) s1.
Proof.
  intros H. unfold start_capture_process. rewrite H.
  by rewrite finally_block_run.
Qed.

Lemma internal_events evs :
  Forall internal evs ->
  scheduled evs = [] /\ posts evs = [] /\ ~ In EvTerminate evs.
Proof.
  induction 1 as [|e evs He _ (IH1 & IH2 & IH3)]; [by auto|].
  unfold scheduled, posts in *.
  destruct e; cbn in *; try done; repeat split; auto; intros [?|?]; done.
Qed.

Lemma scheduled_app t1 t2 : scheduled (t1 ++ t2) = scheduled t1 ++ scheduled t2.
Proof. apply omap_app. Qed.

Lemma posts_app t1 t2 : posts (t1 ++ t2) = posts t1 ++ posts t2.
Proof. apply omap_app. Qed.

Lemma supervision_app t1 t2 :
  supervision (t1 ++ t2) = supervision t1 ++ supervision t2.
Proof. apply List.filter_app. Qed.

Lemma internal_except_clauses env r : emits_only internal (except_clauses env r).
Proof.
  destruct r as [[]| |[]]; cbn [except_clauses];
    auto using emits_only_pass, internal_except_TimeoutExpired,
      internal_except_Exception, internal_except_bare.
Qed.

(** Whatever the path, the body of the [try] and its [except] clauses
    deliver no webhook and send no terminate signal, and they schedule a
    cycle on the port-in-use path only. *)
Lemma try_except_events cfg env port s :
  exists evs,
    trace (try_except cfg env port s) = trace s ++ evs /\
    scheduled evs
    = (if port_in_use_path cfg env port s then [(port + 1)%Z] else []) /\
    posts evs = [] /\
    ~ In EvTerminate evs.
Proof.
  unfold try_except, try_block, port_in_use_path. rewrite run_bind.
  destruct (sentinel_present cfg s) eqn:Hs.
  { rewrite begin_capture_sentinel by done. cbn.
    eexists. split; [reflexivity|]. cbn. repeat split; auto.
    intros [?|[]]; done. }
  destruct (Table.select_pending (db s)) as [|c0 rest] eqn:Hq.
  { rewrite begin_capture_idle by done. cbn.
    eexists. split; [reflexivity|]. cbn. repeat split; auto.
    intros [?|[]]; done. }
  destruct (proxy_port_is_available (head env port)) eqn:Hp.
  2: { rewrite begin_capture_busy; [|done|by rewrite Hq|done]. cbn.
       eexists. split; [reflexivity|]. cbn. repeat split; auto.
       intros [?|[?|[?|[?|[]]]]]; done. }
  rewrite (begin_capture_free cfg env port s c0 rest) by done. cbn.
  set (s0 := with_trace (trace s ++ [EvSelectPending; EvHead port 1]) s).
  assert (adds_only internal s0
            (snd (except_clauses env
               (fst (match claim_and_spawn cfg env port c0 s0 with
                     | (Normal a, s') => finish_capture cfg env a.1 a.2 s'
                     | (Return, s') => (Return, s')
                     | (Raise e, s') => (Raise e, s')
                     end))
               (snd (match claim_and_spawn cfg env port c0 s0 with
                     | (Normal a, s') => finish_capture cfg env a.1 a.2 s'
                     | (Return, s') => (Return, s')
                     | (Raise e, s') => (Raise e, s')
                     end))))) as (evs & Ht & Hint).
  { eapply adds_only_trans; [|apply internal_except_clauses].
    pose proof (internal_claim_and_spawn cfg env port c0 s0) as H1.
    destruct (claim_and_spawn cfg env port c0 s0) as [[job| |e] s1]; try exact H1.
    eapply adds_only_trans; [exact H1|]. apply internal_finish_capture. }
  apply internal_events in Hint as (I1 & I2 & I3).
  exists ([EvSelectPending; EvHead port 1] ++ evs). split.
  - rewrite Ht. subst s0. cbn. by rewrite <- app_assoc.
  - rewrite scheduled_app, posts_app, I1, I2. cbn. repeat split; auto.
    intros [?|[?|?]]; done.
Qed.

Lemma signals_supervision t : signals (supervision t) = signals t.
Proof.
  unfold signals, supervision. induction t as [|e t IH]; [done|].
  destruct e; cbn; rewrite ?IH; reflexivity.
Qed.

Lemma signals_app t1 t2 : signals (t1 ++ t2) = signals t1 ++ signals t2.
Proof. apply List.filter_app. Qed.

(** ** Cycles that end before the claim *)

Lemma try_except_Return cfg env port s s' :
  begin_capture cfg env port s = (Return, s') ->
  try_except cfg env port s = s'.
Proof.
  intros H. unfold try_except, try_block.
  by rewrite (run_bind_return _ _ _ _ H).
Qed.

Lemma cycle_Return cfg env port s evs :
  port_rejected (Some port) = false ->
  begin_capture cfg env port (enter s)
  = (Return, with_trace (trace s ++ evs) (enter s)) ->
  start_capture_process cfg env (Some port) s
  = with_trace (trace s ++ evs ++ [EvDelay port]) (enter s).
Proof.
  intros Hp H. rewrite start_capture_process_accepted by done.
  rewrite (try_except_Return _ _ _ _ _ H). cbn.
  unfold with_trace; cbn. by rewrite <- app_assoc.
Qed.

(** Sentinel present: the message, and the cycle scheduled by the
    [finally] clause. *)
Lemma sentinel_cycle cfg env port s :
  port_rejected (Some port) = false ->
  sentinel_present cfg s = true ->
  start_capture_process cfg env (Some port) s
  = with_trace (trace s ++ [EvPrint MsgSentinel; EvDelay port]) (enter s).
Proof.
  intros Hp Hs. apply (cycle_Return cfg env port s [EvPrint MsgSentinel] Hp).
  by rewrite begin_capture_sentinel.
Qed.

(** No pending capture: the query, and the cycle scheduled by the
    [finally] clause. *)
Lemma idle_cycle cfg env port s :
  port_rejected (Some port) = false ->
  sentinel_present cfg s = false ->
  Table.select_pending (db s) = [] ->
  start_capture_process cfg env (Some port) s
  = with_trace (trace s ++ [EvSelectPending; EvDelay port]) (enter s).
Proof.
  intros Hp Hs Hq. apply (cycle_Return cfg env port s [EvSelectPending] Hp).
  by rewrite begin_capture_idle.
Qed.

(** Port in use: the query, the probe, the message and two scheduled
    cycles, on [port + 1] by the body and on [port] by the [finally]
    clause. *)
Lemma port_in_use_cycle cfg env port s :
  port_rejected (Some port) = false ->
  sentinel_present cfg s = false ->
  Table.select_pending (db s) <> [] ->
  proxy_port_is_available (head env port) = false ->
  start_capture_process cfg env (Some port) s
  = with_trace
      (trace s ++ [EvSelectPending; EvHead port 1; EvPrint (MsgPortInUse port);
                   EvDelay (port + 1); EvDelay port]) (enter s).
Proof.
  intros Hp Hs Hq Ha.
  apply (cycle_Return cfg env port s
           [EvSelectPending; EvHead port 1; EvPrint (MsgPortInUse port);
            EvDelay (port + 1)] Hp).
  by rewrite begin_capture_busy.
Qed.

(** ** The claim of a capture *)

(** The conditional update changes no row when no row of the capture is
    pending any more. *)
Lemma update_started_lost id table :
  (forall r, In r table -> Table.claimable id r = false) ->
  Table.update_started id table = (table, 0%nat).
Proof.
  intros H. unfold Table.update_started. f_equal.
  - induction table as [|r rest IH]; [done|]. cbn.
    rewrite (H r) by (by left). f_equal. apply IH.
    intros r' Hr'. apply H. by right.
  - induction table as [|r rest IH]; [done|]. cbn.
    rewrite (H r) by (by left). apply IH.
    intros r' Hr'. apply H. by right.
Qed.

(** [mark_started] goes on whenever the capture can be re-read: the
    number of rows changed by the conditional update plays no part. *)
Lemma mark_started_ignores_row_count env c0 s :
  fst (mark_started env c0 s) = Normal tt
  <-> is_Some (Table.get (id_capture c0)
                 (fst (Table.update_started (id_capture c0)
                         (other_workers env (db s))))).
Proof.
  unfold mark_started, assign, save_capture. run.
  destruct (Table.get _ _) as [fresh|]; run.
  - cbn [fmap option_fmap option_map]. run. split; eauto.
  - split; [discriminate|]. by intros [? ?].
Qed.

(** ** Cycles that spawn Scoop *)

Lemma cycle_after_spawn cfg env port s c0 p s1 :
  port_rejected (Some port) = false ->
  begin_capture cfg env port (enter s) = (Normal (c0, p), s1) ->
  start_capture_process cfg env (Some port) s
  = let r := finish_capture cfg env c0 p s1 in
    let s2 := snd (except_clauses env (fst r) (snd r)) in
    with_trace (trace s2 ++ webhook_events env (capture s2) ++ [EvDelay port]) s2.
Proof.
  intros Hp Hb. rewrite start_capture_process_accepted by done.
  unfold try_except, try_block. by rewrite (run_bind_normal _ _ _ _ _ Hb).
Qed.

Lemma webhook_events_quiet env c :
  supervision (webhook_events env c) = [] /\
  reported_missing (webhook_events env c) = [].
Proof.
  unfold webhook_events. destruct c as [c|]; [|done].
  destruct (callback_of (Some c)) as [u|]; [|done].
  by destruct (post env u).
Qed.

Lemma stored_rows c id table :
  stored c table -> id_capture c = id ->
  rows_of id table <> [] /\ forall r, In r (rows_of id table) -> r = c.
Proof. intros H <-. exact H. Qed.

(** ** Cycles that end with a capture *)

Lemma claim_and_spawn_capture cfg env port c0 s :
  fst (claim_and_spawn cfg env port c0 s) <> Return /\
  is_Some (capture (snd (claim_and_spawn cfg env port c0 s))).
Proof.
  unfold claim_and_spawn, mark_started, makedirs, spawn, assign, save_capture.
  run.
  destruct (Table.get _ _) as [fresh|]; run; [|by eauto].
  cbn [fmap option_fmap option_map]. run.
  destruct (path_exists _ _); run; [by eauto|].
  destruct (path_exists _ _); run; [by eauto|].
  destruct (popen env _); run; by eauto.
Qed.

(** The capture bound when the [finally] clause starts has reached a
    final status. *)
Lemma try_except_capture_final cfg env port s c :
  capture s = None ->
  capture (try_except cfg env port s) = Some c ->
  status c = success \/ status c = failed.
Proof.
  intros Hnone. unfold try_except, try_block. rewrite run_bind.
  destruct (sentinel_present cfg s) eqn:Hs.
  { rewrite begin_capture_sentinel by done. cbn. congruence. }
  destruct (Table.select_pending (db s)) as [|c0 rest] eqn:Hq.
  { rewrite begin_capture_idle by done. cbn. congruence. }
  destruct (proxy_port_is_available (head env port)) eqn:Hp.
  2: { rewrite begin_capture_busy; [|done|by rewrite Hq|done]. cbn. congruence. }
  rewrite (begin_capture_free cfg env port s c0 rest) by done.
  set (s0 := with_trace _ s).
  destruct (claim_and_spawn_capture cfg env port c0 s0) as [Hnr [c1 Hc1]].
  destruct (claim_and_spawn cfg env port c0 s0) as [[job| |e] s1] eqn:Hcs;
    cbn [fst snd] in *; [| done |].
  2: { destruct (except_clauses_Raise env e s1 c1 Hc1) as (c' & H1 & H2 & _).
       cbn zeta in H1. rewrite H1. intros [= <-]. by right. }
  rewrite finish_capture_run.
  assert (forall e' s', (exists c2, capture s' = Some c2) ->
            capture (snd (except_clauses env (Raise e') s')) = Some c ->
            status c = success \/ status c = failed) as Hraise.
  { intros e' s' [c2 Hc2].
    destruct (except_clauses_Raise env e' s' c2 Hc2) as (c' & H1 & H2 & _).
    cbn zeta in H1. rewrite H1. intros [= <-]. by right. }
  destruct (wait_bound cfg) as [ms|]; cbn zeta; [|apply Hraise; eauto].
  destruct (interrupted env); [apply Hraise; eauto|].
  destruct (exceeds job.2 ms); [apply Hraise; eauto|].
  destruct (stdout job.2) as [out|]; [|apply Hraise; eauto].
  rewrite Hc1. cbn [fmap option_fmap option_map].
  destruct (stderr job.2) as [err|]; [|apply Hraise; eauto].
  match goal with
  | |- context [check_capture_results _ _ _ _ ?st] => set (s3 := st)
  end.
  destruct (check_capture_results_outcome cfg env (id_capture job.1)
              (Some (returncode job.2)) s3
              (set_stderr_logs err (set_stdout_logs out c1)) eq_refl)
    as (c' & s' & r & Hrun & Hc' & _ & _ & _ & Hnp & Hns & _ & Hcases).
  rewrite Hrun. cbn [fst snd].
  destruct Hcases as [(-> & _)|(-> & _)]; [|apply Hraise; eauto].
  cbn [except_clauses]. run. rewrite Hc'. intros [= <-].
  destruct (status c'); auto; done.
Qed.

(** The body of the [try] and the [except] clauses do not depend on the
    outcome of the webhook delivery. *)
Lemma try_except_with_post cfg env delivered port s :
  try_except cfg (with_post delivered env) port s = try_except cfg env port s.
Proof. reflexivity. Qed.

(** ** Three cycles *)

(** A free port, exit code 0 and every file present: status [success],
    end time set, one POST. *)
Example cycle_success :
  let fin :=
    start_capture_process Sample.cfg Sample.env (Some 9000%Z) Sample.queue in
  List.map status (db fin) = [success] /\
  List.map ended_timestamp (db fin) = [Some 300%Z] /\
  length (posts (trace fin)) = 1%nat /\
  scheduled (trace fin) = [9000%Z].
Proof. vm_compute. by repeat split. Qed.

(** Exit code 0 but two attachments of the summary absent: status
    [failed], and both files are reported. *)
Example cycle_missing_attachments :
  let env := Sample.env_with OtherError Sample.scoop_incomplete in
  let fin := start_capture_process Sample.cfg env (Some 9000%Z) Sample.queue in
  List.map status (db fin) = [failed] /\
  reported_missing (trace fin)
  = ["/tmp/scoop/7/attachments/cert1.pem";
     "/tmp/scoop/7/attachments/screenshot.png"].
Proof. vm_compute. by repeat split. Qed.

(** No pending capture: the cycle returns at once and the next one is
    scheduled on the same port. *)
Example cycle_idle :
  trace (start_capture_process Sample.cfg Sample.env (Some 9000%Z)
           Sample.empty_queue)
  = [EvSelectPending; EvDelay 9000].
Proof. vm_compute. reflexivity. Qed.

(** * Further properties *)

(** ** The application factory *)

Lemma override_step_dom (config : gmap string Factory.Setting) k v :
  dom (if bool_decide (is_Some (config !! k)) then <[k := v]> config else config)
  = dom config.
Proof.
  destruct (decide (is_Some (config !! k))) as [H|H].
  - rewrite bool_decide_eq_true_2 by done.
    rewrite dom_insert_L. apply elem_of_dom in H.
    apply subseteq_union_1_L. by apply singleton_subseteq_l.
  - by rewrite bool_decide_eq_false_2.
Qed.

Lemma override_dom defaults config_override :
  dom (Factory.override defaults config_override) = dom defaults.
Proof.
  destruct config_override as [|items]; [done|]. cbn.
  revert defaults. induction items as [|[k v] items IH]; intros defaults; [done|].
  cbn. rewrite IH. apply override_step_dom.
Qed.

Lemma override_other defaults items k :
  ~ In k (List.map fst items) ->
  Factory.override defaults (Factory.Dict items) !! k = defaults !! k.
Proof.
  cbn. revert defaults. induction items as [|[k' v'] items IH];
    intros defaults Hk; [done|].
  cbn in *. rewrite IH by tauto.
  case_bool_decide; [|done]. apply lookup_insert_ne. tauto.
Qed.

(** X1: the override never adds a key and never removes one; a key the
    override does not mention keeps its value; a key of the
    configuration that the override mentions takes the value of the
    override. *)
Theorem X1_override_known_keys_only defaults items :
  NoDup (List.map fst items) ->
  let config := Factory.override defaults (Factory.Dict items) in
  dom config = dom defaults /\
  (forall k, ~ In k (List.map fst items) -> config !! k = defaults !! k) /\
  (forall k v, In (k, v) items ->
     config !! k = if defaults !! k is Some _ then Some v else None).
Proof.
  intros Hnd config. subst config.
  split; [apply override_dom|]. split; [apply override_other|].
  cbn. revert defaults. induction items as [|[k' v'] items IH];
    intros defaults k v Hin; [destruct Hin|].
  apply NoDup_cons in Hnd as [Hk' Hnd]. cbn in *.
  destruct Hin as [[= -> ->]|Hin].
  - pose proof (override_other
      (if bool_decide (is_Some (defaults !! k)) then <[k:=v]> defaults else defaults)
      items k) as Ho.
    cbn in Ho. rewrite Ho by (by rewrite list_elem_of_In in Hk').
    case_bool_decide as H.
    + destruct H as [x ->]. apply lookup_insert_eq.
    + destruct (defaults !! k) eqn:E; [|done]. destruct H. eauto.
  - rewrite (IH Hnd _ k v Hin).
    case_bool_decide as H; [|done].
    destruct (decide (k' = k)) as [->|Hne].
    + rewrite lookup_insert_eq. by destruct H as [x ->].
    + by rewrite lookup_insert_ne.
Qed.

Lemma X1_override_witness :
  let items := [("DOWNGRADE_TO_WARC", Factory.Flag true);
                ("API_DOMAIN", Factory.Text "example.org")] in
  NoDup (List.map fst items) /\
  let config := Factory.override Scenario.defaults (Factory.Dict items) in
  dom config = dom Scenario.defaults /\
  (forall k, ~ In k (List.map fst items) ->
     config !! k = Scenario.defaults !! k) /\
  (forall k v, In (k, v) items ->
     config !! k = if Scenario.defaults !! k is Some _ then Some v else None).
Proof.
  intros items.
  assert (NoDup (List.map fst items)) as Hnd
    by (apply (bool_decide_unpack _); vm_compute; reflexivity).
  split; [exact Hnd|].
  exact (X1_override_known_keys_only Scenario.defaults items Hnd).
Defined.

Lemma create_app_inr defaults config_check config_override d app d' :
  Factory.create_app defaults config_check config_override d = (inr app, d') ->
  exists path settings,
    config_check (Factory.override defaults config_override) = true /\
    Factory.override defaults config_override !! "TEMPORARY_STORAGE_PATH"
    = Some (Factory.Text path) /\
    Factory.makedirs_exist_ok path d = inr d' /\
    Factory.override defaults config_override !! "CELERY" = Some settings /\
    app = {| Factory.name := "scoop_witness_api";
             Factory.config := Factory.override defaults config_override;
             Factory.extensions :=
               {[ "celery" := {| Factory.main := "scoop_witness_api";
                                 Factory.conf := settings |} ]} |}.
Proof.
  unfold Factory.create_app, Factory.celery_init_app. cbn.
  destruct (config_check _) eqn:Hc; cbn; [|discriminate].
  destruct (_ !! "TEMPORARY_STORAGE_PATH") as [[path| | |]|] eqn:Hp;
    try discriminate.
  destruct (Factory.makedirs_exist_ok path d) as [e|d1] eqn:Hm; [discriminate|].
  destruct (_ !! "CELERY") as [settings|] eqn:Hs; [|discriminate].
  intros [= <- <-]. exists path, settings. repeat split; try done.
Qed.

(** X2: when the factory returns the application, its configuration is
    the overridden one and has passed the check, the temporary storage
    folder is a directory on disk and every path that was on disk is
    still there, and the Celery application is registered under
    ["celery"] with the ["CELERY"] settings. *)
Theorem X2_create_app_result defaults config_check config_override d app d' :
  Factory.create_app defaults config_check config_override d = (inr app, d') ->
  Factory.config app = Factory.override defaults config_override /\
  config_check (Factory.config app) = true /\
  (exists path,
     Factory.config app !! "TEMPORARY_STORAGE_PATH" = Some (Factory.Text path) /\
     d' !! path = Some Directory /\
     forall q f, d !! q = Some f -> d' !! q = Some f) /\
  (exists settings,
     Factory.config app !! "CELERY" = Some settings /\
     Factory.extensions app !! "celery"
     = Some {| Factory.main := Factory.name app; Factory.conf := settings |}).
Proof.
  intros H. apply create_app_inr in H
    as (path & settings & Hc & Hp & Hm & Hs & ->). cbn.
  repeat split; try done.
  - exists path. split; [done|]. unfold Factory.makedirs_exist_ok in Hm.
    destruct (d !! path) as [[|doc]|] eqn:E; try discriminate;
      injection Hm as <-.
    + by split.
    + split; [apply lookup_insert_eq|]. intros q f Hq.
      rewrite lookup_insert_ne; [done|]. intros ->. congruence.
  - exists settings. split; [done|]. apply lookup_singleton_eq.
Qed.

Lemma X2_create_app_witness :
  let app :=
    {| Factory.name := "scoop_witness_api";
       Factory.config := Scenario.defaults;
       Factory.extensions :=
         {[ "celery" := {| Factory.main := "scoop_witness_api";
                           Factory.conf := Factory.Options [] |} ]} |} in
  let d : gmap string File := {[ "/etc/hosts" := Regular None ]} in
  let d' : gmap string File := <["/tmp/scoop" := Directory]> d in
  Factory.create_app Scenario.defaults Scenario.accept_all Factory.NotADict d
  = (inr app, d') /\
  Factory.config app = Factory.override Scenario.defaults Factory.NotADict /\
  Scenario.accept_all (Factory.config app) = true /\
  (exists path,
     Factory.config app !! "TEMPORARY_STORAGE_PATH" = Some (Factory.Text path) /\
     d' !! path = Some Directory /\
     forall q f, d !! q = Some f -> d' !! q = Some f) /\
  (exists settings,
     Factory.config app !! "CELERY" = Some settings /\
     Factory.extensions app !! "celery"
     = Some {| Factory.main := Factory.name app; Factory.conf := settings |}).
Proof.
  intros app d d'.
  assert (Factory.create_app Scenario.defaults Scenario.accept_all
            Factory.NotADict d = (inr app, d')) as H
    by (vm_compute; reflexivity).
  split; [exact H|].
  exact (X2_create_app_result Scenario.defaults Scenario.accept_all
           Factory.NotADict d app d' H).
Defined.

(** X3: the factory can be called again on the disk it has left: the
    second call returns the same application and leaves the disk as it
    is. *)
Theorem X3_create_app_again defaults config_check config_override d app d' :
  Factory.create_app defaults config_check config_override d = (inr app, d') ->
  Factory.create_app defaults config_check config_override d' = (inr app, d').
Proof.
  intros H. apply create_app_inr in H
    as (path & settings & Hc & Hp & Hm & Hs & ->).
  unfold Factory.create_app, Factory.celery_init_app. cbn.
  rewrite Hc, Hp. cbn.
  assert (Factory.makedirs_exist_ok path d' = inr d') as ->.
  { unfold Factory.makedirs_exist_ok in *.
    destruct (d !! path) as [[|doc]|] eqn:E; try discriminate;
      injection Hm as <-.
    - by rewrite E.
    - by rewrite lookup_insert_eq. }
  by rewrite Hs.
Qed.

Lemma X3_create_app_again_witness :
  let app :=
    {| Factory.name := "scoop_witness_api";
       Factory.config := Scenario.defaults;
       Factory.extensions :=
         {[ "celery" := {| Factory.main := "scoop_witness_api";
                           Factory.conf := Factory.Options [] |} ]} |} in
  let d' : gmap string File := {[ "/tmp/scoop" := Directory ]} in
  Factory.create_app Scenario.defaults Scenario.accept_all Factory.NotADict ∅
  = (inr app, d') /\
  Factory.create_app Scenario.defaults Scenario.accept_all Factory.NotADict d'
  = (inr app, d').
Proof.
  intros app d'.
  assert (Factory.create_app Scenario.defaults Scenario.accept_all
            Factory.NotADict ∅ = (inr app, d')) as H
    by (vm_compute; reflexivity).
  split; [exact H|].
  exact (X3_create_app_again Scenario.defaults Scenario.accept_all
           Factory.NotADict ∅ app d' H).
Defined.

(** X4: when the temporary storage path is a regular file, the factory
    raises [FileExistsError] in spite of [exist_ok=True], and the disk
    is unchanged. *)
Theorem X4_create_app_storage_is_a_file
    defaults config_check config_override d path document :
  config_check (Factory.override defaults config_override) = true ->
  Factory.override defaults config_override !! "TEMPORARY_STORAGE_PATH"
  = Some (Factory.Text path) ->
  d !! path = Some (Regular document) ->
  Factory.create_app defaults config_check config_override d
  = (inl (Factory.FileExistsError path), d).
Proof.
  intros Hc Hp Hd. unfold Factory.create_app. cbn. rewrite Hc, Hp. cbn.
  unfold Factory.makedirs_exist_ok. by rewrite Hd.
Qed.

Lemma X4_storage_is_a_file_witness :
  let d : gmap string File := {[ "/tmp/scoop" := Regular None ]} in
  Scenario.accept_all (Factory.override Scenario.defaults Factory.NotADict)
  = true /\
  Factory.override Scenario.defaults Factory.NotADict
    !! "TEMPORARY_STORAGE_PATH" = Some (Factory.Text "/tmp/scoop") /\
  d !! "/tmp/scoop" = Some (Regular None) /\
  Factory.create_app Scenario.defaults Scenario.accept_all Factory.NotADict d
  = (inl (Factory.FileExistsError "/tmp/scoop"), d).
Proof.
  intros d.
  assert (Factory.override Scenario.defaults Factory.NotADict
            !! "TEMPORARY_STORAGE_PATH" = Some (Factory.Text "/tmp/scoop"))
    as Hp by (vm_compute; reflexivity).
  assert (d !! "/tmp/scoop" = Some (Regular None)) as Hd
    by (vm_compute; reflexivity).
  split; [reflexivity|]. split; [exact Hp|]. split; [exact Hd|].
  exact (X4_create_app_storage_is_a_file Scenario.defaults Scenario.accept_all
           Factory.NotADict d "/tmp/scoop" None eq_refl Hp Hd).
Defined.

(** X5: without a ["CELERY"] key the factory raises [KeyError], but only
    after it has created the temporary storage folder: the folder stays
    on disk though no application is returned. *)
Theorem X5_create_app_without_celery
    defaults config_check config_override d path :
  config_check (Factory.override defaults config_override) = true ->
  Factory.override defaults config_override !! "TEMPORARY_STORAGE_PATH"
  = Some (Factory.Text path) ->
  Factory.override defaults config_override !! "CELERY" = None ->
  d !! path = None ->
  let r := Factory.create_app defaults config_check config_override d in
  fst r = inl (Factory.KeyError "CELERY") /\
  snd r !! path = Some Directory.
Proof.
  intros Hc Hp Hs Hd r. subst r.
  unfold Factory.create_app, Factory.celery_init_app.
  cbn. rewrite Hc, Hp. cbn.
  unfold Factory.makedirs_exist_ok. rewrite Hd, Hs. cbn.
  split; [done|]. apply lookup_insert_eq.
Qed.

Lemma X5_without_celery_witness :
  let defaults : gmap string Factory.Setting :=
    {[ "TEMPORARY_STORAGE_PATH" := Factory.Text "/tmp/scoop" ]} in
  Scenario.accept_all (Factory.override defaults Factory.NotADict) = true /\
  Factory.override defaults Factory.NotADict !! "TEMPORARY_STORAGE_PATH"
  = Some (Factory.Text "/tmp/scoop") /\
  Factory.override defaults Factory.NotADict !! "CELERY" = None /\
  (∅ : gmap string File) !! "/tmp/scoop" = None /\
  let r :=
    Factory.create_app defaults Scenario.accept_all Factory.NotADict ∅ in
  fst r = inl (Factory.KeyError "CELERY") /\
  snd r !! "/tmp/scoop" = Some Directory.
Proof.
  intros defaults.
  assert (Factory.override defaults Factory.NotADict
            !! "TEMPORARY_STORAGE_PATH" = Some (Factory.Text "/tmp/scoop"))
    as Hp by (vm_compute; reflexivity).
  assert (Factory.override defaults Factory.NotADict !! "CELERY" = None)
    as Hs by (vm_compute; reflexivity).
  assert ((∅ : gmap string File) !! "/tmp/scoop" = None) as Hd
    by (vm_compute; reflexivity).
  split; [reflexivity|]. split; [exact Hp|]. split; [exact Hs|].
  split; [exact Hd|].
  exact (X5_create_app_without_celery defaults Scenario.accept_all
           Factory.NotADict ∅ "/tmp/scoop" eq_refl Hp Hs Hd).
Defined.

(** ** The table across a cycle *)

Lemma save_ids c table :
  List.map id_capture (Table.save c table) = List.map id_capture table.
Proof.
  unfold Table.save. induction table as [|r rest IH]; [done|]. cbn.
  rewrite IH. destruct (String.eqb (id_capture r) (id_capture c)) eqn:E; [|done].
  apply String.eqb_eq in E. by rewrite E.
Qed.

Lemma save_others c table :
  rows_of_others (id_capture c) (Table.save c table)
  = rows_of_others (id_capture c) table.
Proof.
  unfold rows_of_others, Table.save. induction table as [|r rest IH]; [done|].
  cbn. destruct (String.eqb (id_capture r) (id_capture c)) eqn:E; cbn.
  - by rewrite String.eqb_refl.
  - rewrite E. cbn. by rewrite IH.
Qed.

Lemma update_started_ids id table :
  List.map id_capture (fst (Table.update_started id table))
  = List.map id_capture table.
Proof.
  cbn. induction table as [|r rest IH]; [done|]. cbn. rewrite IH.
  by destruct (Table.claimable id r).
Qed.

Lemma update_started_others id table :
  rows_of_others id (fst (Table.update_started id table))
  = rows_of_others id table.
Proof.
  unfold rows_of_others, Table.update_started. cbn [fst].
  induction table as [|r rest IH]; [done|]. cbn [List.map List.filter].
  destruct (Table.claimable id r) eqn:C.
  - unfold Table.claimable in C. apply andb_true_iff in C as [E _].
    cbn [id_capture set_status]. rewrite E. cbn [negb]. exact IH.
  - destruct (String.eqb (id_capture r) id); cbn [negb]; by rewrite IH.
Qed.

Lemma same_frame_save base c table :
  same_frame base (id_capture c) table ->
  same_frame base (id_capture c) (Table.save c table).
Proof. intros [H1 H2]. split; by rewrite ?save_others, ?save_ids. Qed.

Lemma same_frame_update_started id table :
  same_frame table id (fst (Table.update_started id table)).
Proof. split; [apply update_started_others | apply update_started_ids]. Qed.

Lemma claim_and_spawn_table cfg env port c0 s :
  let r := claim_and_spawn cfg env port c0 s in
  fst r <> Return /\
  exists c,
    capture (snd r) = Some c /\
    id_capture c = id_capture c0 /\
    same_frame (other_workers env (db s)) (id_capture c0) (db (snd r)).
Proof.
  unfold claim_and_spawn, mark_started, makedirs, spawn, assign, save_capture.
  run.
  pose proof (same_frame_update_started (id_capture c0)
                (other_workers env (db s))) as HU.
  destruct (Table.get _ _) as [fresh|] eqn:G; run; [|by eauto 6].
  apply get_Some in G as [Hid _].
  cbn [fmap option_fmap option_map]. run.
  assert (same_frame (other_workers env (db s)) (id_capture c0)
            (Table.save (set_started_timestamp (utcnow_started env) fresh)
               (fst (Table.update_started (id_capture c0)
                       (other_workers env (db s)))))) as HS.
  { rewrite <- Hid.
    apply (same_frame_save _ (set_started_timestamp (utcnow_started env) fresh)).
    cbn [id_capture set_started_timestamp]. by rewrite Hid. }
  destruct (path_exists _ _); run; [by eauto 6|].
  destruct (path_exists _ _); run; [by eauto 6|].
  destruct (popen env _); run; by eauto 6.
Qed.

Lemma settled_after_raise env base id e s c :
  capture s = Some c ->
  id_capture c = id ->
  same_frame base id (db s) ->
  settled env base id (snd (except_clauses env (Raise e) s)).
Proof.
  intros Hc Hid Hf.
  destruct (except_clauses_Raise env e s c Hc)
    as (c' & H1 & H2 & H3 & _ & _ & H4 & H5 & _).
  cbn zeta in *. exists c', (db s). repeat split; try done.
  - congruence.
  - apply Hf.
  - apply Hf.
  - by right.
Qed.

(** A cycle that picks a capture leaves it settled, whatever happens
    between the claim and the end of the body. *)
Lemma try_except_settled cfg env port s c0 rest :
  sentinel_present cfg s = false ->
  Table.select_pending (db s) = c0 :: rest ->
  proxy_port_is_available (head env port) = true ->
  settled env (other_workers env (db s)) (id_capture c0)
    (try_except cfg env port s).
Proof.
  intros Hs Hq Hp. unfold try_except, try_block. rewrite run_bind.
  rewrite (begin_capture_free cfg env port s c0 rest) by done.
  set (s0 := with_trace _ s).
  destruct (claim_and_spawn_table cfg env port c0 s0) as (Hnr & c1 & Hc1 & Hid1 & Hf1).
  change (db s0) with (db s) in Hf1.
  destruct (claim_and_spawn cfg env port c0 s0) as [[job| |e] s1] eqn:Hcs;
    cbn [fst snd] in *; [| done | by eapply settled_after_raise].
  apply claim_and_spawn_Normal in Hcs as (c & rows & Hj & _).
  rewrite Hj. rewrite finish_capture_run.
  destruct (wait_bound cfg) as [ms|]; cbn zeta;
    [|by eapply settled_after_raise].
  destruct (interrupted env); [by eapply settled_after_raise|].
  destruct (exceeds job.2 ms); [by eapply settled_after_raise|].
  destruct (stdout job.2) as [out|]; [|by eapply settled_after_raise].
  rewrite Hc1. cbn [fmap option_fmap option_map].
  destruct (stderr job.2) as [err|];
    [|by eapply (settled_after_raise _ _ _ _ _ (set_stdout_logs out c1))].
  match goal with
  | |- context [check_capture_results _ _ _ _ ?st] => set (s3 := st)
  end.
  destruct (check_capture_results_outcome cfg env (id_capture c0)
              (Some (returncode job.2)) s3
              (set_stderr_logs err (set_stdout_logs out c1)) eq_refl)
    as (c' & s' & r & Hrun & Hc' & Hid' & _ & _ & Hnp & Hns & _ & Hcases).
  rewrite Hrun. cbn [fst snd]. cbn in Hid'.
  destruct Hcases as [(-> & Hdb & _ & Hend & _)|(-> & Hdb)].
  - cbn [except_clauses]. run. exists c', (db s3).
    repeat split; try done; try congruence; try apply Hf1.
    destruct (status c'); auto; done.
  - eapply settled_after_raise; [exact Hc'|congruence|].
    rewrite Hdb. exact Hf1.
Qed.

(** ** Picking a capture *)

Lemma select_pending_In table c :
  In c (Table.select_pending table) -> In c table /\ status c = pending.
Proof.
  unfold Table.select_pending.
  destruct (List.filter Table.is_pending table) as [|d rest] eqn:E;
    [intros []|].
  intros [<-|[]].
  assert (In d (List.filter Table.is_pending table)) as Hd
    by (rewrite E; by left).
  apply filter_In in Hd as [Hin Hp].
  split; [done|]. by apply bool_decide_eq_true_1 in Hp.
Qed.

Lemma select_pending_none table :
  (forall r, In r table -> status r <> pending) ->
  Table.select_pending table = [].
Proof.
  intros H. unfold Table.select_pending.
  destruct (List.filter Table.is_pending table) as [|d rest] eqn:E; [done|].
  assert (In d (List.filter Table.is_pending table)) as Hd
    by (rewrite E; by left).
  apply filter_In in Hd as [Hin Hp].
  apply bool_decide_eq_true_1 in Hp. by destruct (H d Hin).
Qed.

(** X6: the query for pending captures returns at most one row; the row
    is a row of the table with status [pending]; and it returns none
    only when no row of the table is pending. *)
Theorem X6_select_pending_row table :
  (length (Table.select_pending table) <= 1)%nat /\
  (forall c, In c (Table.select_pending table) ->
     In c table /\ status c = pending) /\
  (Table.select_pending table = [] <->
   forall r, In r table -> status r <> pending).
Proof.
  split; [|split; [apply select_pending_In|split; [|apply select_pending_none]]].
  - unfold Table.select_pending. apply firstn_le_length.
  - intros E r Hin Hp.
    assert (In r (List.filter Table.is_pending table)) as Hr.
    { apply filter_In. split; [done|]. by apply bool_decide_eq_true_2. }
    unfold Table.select_pending in E.
    destruct (List.filter Table.is_pending table) as [|d rest];
      [destruct Hr | discriminate].
Qed.

(** ** Cycles and the table *)

(** X7: without sentinel and without pending capture the port is not
    probed: the cycle runs the query, leaves table and disk as they are
    and schedules the next cycle on the same port, whatever listens on
    the port. *)
Theorem X7_idle_cycle_skips_the_probe cfg env port s :
  port_rejected (Some port) = false ->
  sentinel_present cfg s = false ->
  (forall r, In r (db s) -> status r <> pending) ->
  let fin := start_capture_process cfg env (Some port) s in
  trace fin = trace s ++ [EvSelectPending; EvDelay port] /\
  db fin = db s /\
  disk fin = disk s.
Proof.
  intros Hp Hs Hn fin. subst fin.
  rewrite (idle_cycle cfg env port s Hp Hs (select_pending_none _ Hn)).
  by repeat split.
Qed.

Lemma X7_idle_cycle_witness :
  let env := Sample.env_with Responded Sample.scoop in
  port_rejected (Some 9000%Z) = false /\
  sentinel_present Sample.cfg Scenario.one_finished = false /\
  (forall r, In r (db Scenario.one_finished) -> status r <> pending) /\
  let fin :=
    start_capture_process Sample.cfg env (Some 9000%Z) Scenario.one_finished in
  trace fin = trace Scenario.one_finished ++ [EvSelectPending; EvDelay 9000] /\
  db fin = db Scenario.one_finished /\
  disk fin = disk Scenario.one_finished.
Proof.
  intros env.
  assert (forall r, In r (db Scenario.one_finished) -> status r <> pending) as Hn.
  { intros r [<-|[]]. discriminate. }
  split; [reflexivity|]. split; [vm_compute; reflexivity|]. split; [exact Hn|].
  exact (X7_idle_cycle_skips_the_probe Sample.cfg env 9000 Scenario.one_finished
           eq_refl eq_refl Hn).
Defined.

Lemma start_capture_process_rejected cfg env port s :
  port_rejected port = true ->
  start_capture_process cfg env port s
  = with_trace (trace s ++ [EvPrint MsgInvalidPort]) (enter s).
Proof.
  intros H. unfold start_capture_process. rewrite H. by destruct port.
Qed.

(** X8: a cycle adds no row and removes none.  Either it leaves the
    table as it is, or it has picked a pending capture, and then the
    table differs from the one the other workers have left only in the
    rows of that capture: the rows of every other capture and the ids of
    all rows are the same. *)
Theorem X8_cycle_changes_one_capture cfg env port s :
  let fin := start_capture_process cfg env port s in
  db fin = db s \/
  exists c0,
    In c0 (Table.select_pending (db s)) /\
    rows_of_others (id_capture c0) (db fin)
    = rows_of_others (id_capture c0) (other_workers env (db s)) /\
    List.map id_capture (db fin)
    = List.map id_capture (other_workers env (db s)).
Proof.
  intros fin. subst fin.
  destruct (port_rejected port) eqn:Hp.
  { left. by rewrite start_capture_process_rejected. }
  destruct port as [port|]; [|discriminate].
  destruct (sentinel_present cfg s) eqn:Hs.
  { left. by rewrite sentinel_cycle. }
  destruct (Table.select_pending (db s)) as [|c0 rest] eqn:Hq.
  { left. by rewrite idle_cycle. }
  destruct (proxy_port_is_available (head env port)) eqn:Ha.
  2: { left. rewrite port_in_use_cycle; try done. by rewrite Hq. }
  right. exists c0. split; [by left|].
  rewrite start_capture_process_accepted by done. cbn zeta. cbn [db with_trace].
  destruct (try_except_settled cfg env port (enter s) c0 rest Hs Hq Ha)
    as (c & T & _ & Hid & -> & [H1 H2] & _).
  cbn [enter db with_process_returncode with_process with_capture] in H1, H2.
  rewrite <- Hid. rewrite save_others, save_ids. rewrite Hid. by split.
Qed.

(** The rows of the capture a cycle has picked, once the cycle is over. *)
Lemma settled_rows env base id s :
  settled env base id s ->
  exists c,
    capture s = Some c /\ id_capture c = id /\
    (status c = success \/ status c = failed) /\
    ended_timestamp c = Some (utcnow_ended env) /\
    forall r, In r (rows_of id (db s)) -> r = c.
Proof.
  intros (c & T & Hc & Hid & Hdb & _ & Hst & He).
  exists c. repeat split; try done.
  intros r. rewrite Hdb, <- Hid, rows_of_save.
  intros Hr. apply in_map_iff in Hr as (? & ? & ?). congruence.
Qed.

(** X9: a cycle that picks a capture never leaves it [pending] or
    [started]: whatever happens after the claim -- the folder cannot be
    created, Scoop cannot be spawned, the wait times out or is
    interrupted, the check raises -- every row of the capture ends with
    status [success] or [failed] and with the end time of the cycle. *)
Theorem X9_picked_capture_ends_final cfg env port s c0 rest :
  port_rejected (Some port) = false ->
  sentinel_present cfg s = false ->
  Table.select_pending (db s) = c0 :: rest ->
  proxy_port_is_available (head env port) = true ->
  let fin := start_capture_process cfg env (Some port) s in
  Forall (fun r => (status r = success \/ status r = failed) /\
                   ended_timestamp r = Some (utcnow_ended env))
    (rows_of (id_capture c0) (db fin)).
Proof.
  intros Hp Hs Hq Ha fin. subst fin.
  rewrite start_capture_process_accepted by done. cbn zeta. cbn [db with_trace].
  destruct (settled_rows _ _ _ _
              (try_except_settled cfg env port (enter s) c0 rest Hs Hq Ha))
    as (c & _ & _ & Hst & He & Hrows).
  apply List.Forall_forall. intros r Hr. by rewrite (Hrows r Hr).
Qed.

Lemma X9_picked_capture_witness :
  port_rejected (Some 9000%Z) = false /\
  sentinel_present Sample.cfg Scenario.queue_with_folder = false /\
  Table.select_pending (db Scenario.queue_with_folder) = Sample.job :: [] /\
  proxy_port_is_available (head Sample.env 9000) = true /\
  let fin :=
    start_capture_process Sample.cfg Sample.env (Some 9000%Z)
      Scenario.queue_with_folder in
  Forall (fun r => (status r = success \/ status r = failed) /\
                   ended_timestamp r = Some (utcnow_ended Sample.env))
    (rows_of (id_capture Sample.job) (db fin)).
Proof.
  split; [reflexivity|]. split; [vm_compute; reflexivity|].
  split; [reflexivity|]. split; [reflexivity|].
  exact (X9_picked_capture_ends_final Sample.cfg Sample.env 9000
           Scenario.queue_with_folder Sample.job [] eq_refl eq_refl eq_refl
           eq_refl).
Defined.

(** X10: the capture a cycle has picked is not pending any more when
    the cycle is over, so the query of a later cycle does not return
    it. *)
Theorem X10_picked_capture_not_selected_again cfg env port s c0 rest :
  port_rejected (Some port) = false ->
  sentinel_present cfg s = false ->
  Table.select_pending (db s) = c0 :: rest ->
  proxy_port_is_available (head env port) = true ->
  let fin := start_capture_process cfg env (Some port) s in
  forall c, In c (Table.select_pending (db fin)) ->
            id_capture c <> id_capture c0.
Proof.
  intros Hp Hs Hq Ha fin c Hc Hid. subst fin.
  apply select_pending_In in Hc as [Hin Hpend].
  rewrite start_capture_process_accepted in Hin by done.
  cbn zeta in Hin. cbn [db with_trace] in Hin.
  destruct (settled_rows _ _ _ _
              (try_except_settled cfg env port (enter s) c0 rest Hs Hq Ha))
    as (cf & _ & _ & Hst & _ & Hrows).
  assert (c = cf) as ->.
  { apply Hrows. unfold rows_of. apply filter_In. split; [done|].
    by apply String.eqb_eq. }
  destruct Hst; congruence.
Qed.

Lemma X10_not_selected_again_witness :
  port_rejected (Some 9000%Z) = false /\
  sentinel_present Sample.cfg Sample.queue = false /\
  Table.select_pending (db Sample.queue) = Sample.job :: [] /\
  proxy_port_is_available (head Sample.env 9000) = true /\
  let fin :=
    start_capture_process Sample.cfg Sample.env (Some 9000%Z) Sample.queue in
  forall c, In c (Table.select_pending (db fin)) ->
            id_capture c <> id_capture Sample.job.
Proof.
  split; [reflexivity|]. split; [vm_compute; reflexivity|].
  split; [reflexivity|]. split; [reflexivity|].
  exact (X10_picked_capture_not_selected_again Sample.cfg Sample.env 9000
           Sample.queue Sample.job [] eq_refl eq_refl eq_refl eq_refl).
Defined.

(** X11: the body of the webhook is the capture as the table holds it.
    When a cycle has picked a capture, every row of that capture equals
    the capture bound at the end of the cycle, and the cycle posts that
    capture, once, if it has a callback URL and nothing otherwise. *)
Theorem X11_webhook_body_is_the_stored_row cfg env port s c0 rest :
  port_rejected (Some port) = false ->
  sentinel_present cfg s = false ->
  Table.select_pending (db s) = c0 :: rest ->
  proxy_port_is_available (head env port) = true ->
  let fin := start_capture_process cfg env (Some port) s in
  exists c,
    capture fin = Some c /\
    id_capture c = id_capture c0 /\
    (forall r, In r (rows_of (id_capture c0) (db fin)) -> r = c) /\
    posts (trace fin)
    = posts (trace s)
      ++ (if callback_of (Some c) is Some u then [(u, c, 10%Z)] else []).
Proof.
  intros Hp Hs Hq Ha fin. subst fin.
  rewrite start_capture_process_accepted by done. cbn zeta.
  cbn [db trace capture with_trace].
  destruct (settled_rows _ _ _ _
              (try_except_settled cfg env port (enter s) c0 rest Hs Hq Ha))
    as (c & Hc & Hid & _ & _ & Hrows).
  exists c. repeat split; try done.
  destruct (try_except_events cfg env port (enter s)) as (evs & Ht & _ & Hposts & _).
  rewrite Ht, !posts_app, Hposts, app_nil_r.
  cbn [enter trace with_process_returncode with_process with_capture].
  f_equal. unfold webhook_events. rewrite Hc.
  destruct (callback_of (Some c)) as [u|]; [|done].
  cbn. by destruct (post env u).
Qed.

Lemma X11_webhook_body_witness :
  port_rejected (Some 9000%Z) = false /\
  sentinel_present Sample.cfg Sample.queue = false /\
  Table.select_pending (db Sample.queue) = Sample.job :: [] /\
  proxy_port_is_available (head Sample.env 9000) = true /\
  let fin :=
    start_capture_process Sample.cfg Sample.env (Some 9000%Z) Sample.queue in
  exists c,
    capture fin = Some c /\
    id_capture c = id_capture Sample.job /\
    (forall r, In r (rows_of (id_capture Sample.job) (db fin)) -> r = c) /\
    posts (trace fin)
    = posts (trace Sample.queue)
      ++ (if callback_of (Some c) is Some u then [(u, c, 10%Z)] else []).
Proof.
  split; [reflexivity|]. split; [vm_compute; reflexivity|].
  split; [reflexivity|]. split; [reflexivity|].
  exact (X11_webhook_body_is_the_stored_row Sample.cfg Sample.env 9000
           Sample.queue Sample.job [] eq_refl eq_refl eq_refl eq_refl).
Defined.

(** ** Exact runs of the [except] clauses and of the check *)

Lemma except_Exception_run env s c :
  capture s = Some c ->
  except_Exception env s
  = let c' := set_ended_timestamp (utcnow_ended env) (set_status failed c) in
    (Normal tt,
     with_trace
       (trace s ++ [EvSave (id_capture c); EvPrint MsgFailedOther;
                    EvPrint MsgTraceback])
       (with_db (Table.save c' (db s)) (with_capture (Some c') s))).
Proof.
  intros Hc. unfold except_Exception, mark_failed, assign, save_capture.
  repeat progress (run; rewrite ?Hc; cbn [fmap option_fmap option_map]).
  unfold with_trace, with_db, with_capture; cbn. by rewrite <- !app_assoc.
Qed.

Lemma except_bare_run env s c :
  capture s = Some c ->
  except_bare env s
  = let c' := set_ended_timestamp (utcnow_ended env)
                (if bool_decide (status c ≠ failed) then set_status failed c
                 else c) in
    (Normal tt,
     with_trace (trace s ++ [EvPrint MsgAborted; EvSave (id_capture c)])
       (with_db (Table.save c' (db s)) (with_capture (Some c') s))).
Proof.
  intros Hc. unfold except_bare, assign, save_capture.
  repeat progress (run; rewrite ?Hc; cbn [fmap option_fmap option_map]).
  destruct (bool_decide (status c ≠ failed));
    repeat progress (run; rewrite ?Hc; cbn [fmap option_fmap option_map]);
    unfold with_trace, with_db, with_capture; cbn; by rewrite <- !app_assoc.
Qed.

(** The state in which the check of the results ends when nothing
    raises: the verdict [v], the messages [evs] and the capture [c]
    to save. *)
Lemma check_capture_results_run cfg env id code s c :
  capture s = Some c ->
  check_capture_results cfg env id code s
  = let c1 := set_ended_timestamp (utcnow_ended env) (set_status failed c) in
    let finish v evs c2 :=
      (Normal tt,
       with_db (Table.save (set_status v c2) (db s))
         (with_trace (trace s ++ evs ++ [EvSave (id_capture c)])
            (with_capture (Some (set_status v c2)) s))) in
    if bool_decide (code = Some 0%Z)
       && path_exists (disk s) (archive_path cfg id)
       && path_exists (disk s) (json_summary_path cfg id)
    then
      match summary_at (disk s) (json_summary_path cfg id) with
      | Some doc =>
          match attachments doc with
          | Some atts =>
              let missing :=
                missing_files (disk s) (attachments_path cfg id)
                  (expected_filenames atts) in
              let evs := List.map (fun p => EvPrint (MsgAttachmentNotFound p))
                           missing in
              if forallb
                   (fun f => path_exists (disk s)
                               (attachments_path cfg id +:+ sep +:+ f))
                   (expected_filenames atts)
              then finish success (evs ++ [EvPrint MsgSuccess])
                     (set_summary doc c1)
              else finish failed (evs ++ [EvPrint (MsgFailed NoReason)])
                     (set_summary doc c1)
          | None =>
              (Raise OtherException,
               with_capture (Some (set_summary doc c1)) s)
          end
      | None => (Raise OtherException, with_capture (Some c1) s)
      end
    else
      finish failed [EvPrint (MsgFailed (first_reason cfg id code (disk s)))] c1.
Proof.
  intros Hc. unfold check_capture_results, assign, save_capture, first_reason.
  run. rewrite Hc. cbn [fmap option_fmap option_map]. cbn zeta.
  destruct (bool_decide (code = Some 0%Z)) eqn:Hcode.
  2: { apply bool_decide_eq_false_1 in Hcode.
       rewrite bool_decide_eq_true_2 by done.
       run. cbn [fmap option_fmap option_map andb]. run.
       unfold with_trace, with_db, with_capture; cbn.
       by rewrite <- !app_assoc. }
  rewrite bool_decide_eq_false_2
    by (apply bool_decide_eq_true_1 in Hcode; naive_solver).
  run.
  destruct (path_exists (disk s) (archive_path cfg id)) eqn:Ha.
  2: { cbn [negb andb reason_set]. rewrite !andb_false_r.
       run. cbn [fmap option_fmap option_map]. run.
       unfold with_trace, with_db, with_capture; cbn.
       by rewrite <- !app_assoc. }
  destruct (path_exists (disk s) (json_summary_path cfg id)) eqn:Hj.
  2: { cbn [negb andb reason_set]. run. cbn [fmap option_fmap option_map]. run.
       unfold with_trace, with_db, with_capture; cbn.
       by rewrite <- !app_assoc. }
  cbn [negb andb reason_set]. run.
  rewrite check_summary_run. cbn [disk with_capture capture].
  unfold summary_at.
  destruct (disk s !! json_summary_path cfg id) as [[|[doc|]]|] eqn:Hf;
    try reflexivity.
  destruct (attachments doc) as [atts|] eqn:Hatts; [|reflexivity].
  rewrite check_files_run. cbn [fmap option_fmap option_map]. run.
  rewrite filenames_to_check_flat. cbn [andb].
  destruct (forallb _ (expected_filenames atts)) eqn:Hall;
    run; cbn [fmap option_fmap option_map]; run;
    unfold with_trace, with_db, with_capture; cbn;
    by rewrite <- !app_assoc.
Qed.

(** ** Cycles that spawn Scoop: the log, the summary, the failures *)

Lemma failed_rows c c' table :
  stored c table ->
  id_capture c' = id_capture c ->
  status c' = failed ->
  rows_of (id_capture c) (Table.save c' table) <> [] /\
  Forall (fun r => status r = failed)
    (rows_of (id_capture c) (Table.save c' table)).
Proof.
  intros [Hne _] Hid Hst. rewrite <- Hid in *.
  destruct (save_stored c' table Hne) as [N A]. split; [done|].
  apply List.Forall_forall. intros r Hr. by rewrite (A r Hr).
Qed.

(** X12: the log of a check that reaches its end.  After the wait, the
    cycle prints one line for each missing attachment, then the verdict:
    [Success], or [Failed] with the first reason among exit code,
    missing archive and missing summary -- and with no reason at all
    when only attachments are missing -- and then saves the capture. *)
Theorem X12_log_of_the_check cfg env port s c0 p s1 s2 :
  port_rejected (Some port) = false ->
  begin_capture cfg env port (enter s) = (Normal (c0, p), s1) ->
  finish_capture cfg env c0 p s1 = (Normal tt, s2) ->
  let fin := start_capture_process cfg env (Some port) s in
  let code := Some (returncode p) in
  exists ms c,
    wait_bound cfg = Some ms /\
    capture fin = Some c /\
    trace fin
    = trace s1
      ++ [EvCommunicate ms]
      ++ List.map (fun f => EvPrint (MsgAttachmentNotFound f))
           (missing_attachments cfg (id_capture c0) code (disk fin))
      ++ [EvPrint (if bool_decide (status c = success) then MsgSuccess
                   else MsgFailed
                          (first_reason cfg (id_capture c0) code (disk fin)));
          EvSave (id_capture c0)]
      ++ webhook_events env (Some c)
      ++ [EvDelay port].
Proof.
  intros Hp Hb Hf fin code. subst fin code.
  rewrite (cycle_after_spawn _ _ _ _ _ _ _ Hp Hb). rewrite Hf.
  cbn [fst snd except_clauses]. run.
  rewrite finish_capture_run in Hf.
  destruct (wait_bound cfg) as [ms|]; [|discriminate]. cbn zeta in Hf.
  destruct (interrupted env); [discriminate|].
  destruct (exceeds p ms); [discriminate|].
  destruct (stdout p) as [out|]; [|discriminate].
  destruct (stderr p) as [err|]; [|discriminate].
  apply begin_capture_Normal in Hb as (c & rows & _ & _ & Hc & Hid & _).
  cbn [fst snd] in *. rewrite Hc in Hf. cbn [fmap option_fmap option_map] in Hf.
  match type of Hf with
  | check_capture_results _ _ _ _ ?st = _ =>
      rewrite (check_capture_results_run cfg env _ _ st
                 (set_stderr_logs err (set_stdout_logs out c)) eq_refl) in Hf
  end.
  cbn zeta in Hf.
  cbn [db disk trace capture with_capture with_process_returncode with_disk
       with_trace with_db id_capture set_stderr_logs set_stdout_logs] in Hf.
  unfold missing_attachments, first_reason, expected_attachments.
  exists ms.
  destruct (bool_decide (Some (returncode p) = Some 0%Z)
            && path_exists (list_to_map (written p) ∪ disk s1)
                 (archive_path cfg (id_capture c0))
            && path_exists (list_to_map (written p) ∪ disk s1)
                 (json_summary_path cfg (id_capture c0))) eqn:Hcond.
  - unfold summary_at in Hf.
    destruct ((list_to_map (written p) ∪ disk s1)
                !! json_summary_path cfg (id_capture c0))
      as [[|[doc|]]|] eqn:Hdoc; try discriminate.
    destruct (attachments doc) as [atts|] eqn:Hatts; [|discriminate].
    apply andb_true_iff in Hcond as [Hcond Hj].
    apply andb_true_iff in Hcond as [Hcode Ha].
    destruct (forallb _ (expected_filenames atts)) eqn:Hall;
      injection Hf as <-; eexists; (split; [reflexivity|]);
      (split; [reflexivity|]);
      cbn [db disk trace capture with_capture with_db with_trace status
           set_status with_process_returncode with_disk];
      rewrite Hcode, Ha, Hj, Hdoc, Hatts, Hid; cbn;
      rewrite <- !app_assoc; reflexivity.
  - injection Hf as <-. eexists. split; [reflexivity|]. split; [reflexivity|].
    cbn [db disk trace capture with_capture with_db with_trace status
         set_status with_process_returncode with_disk].
    rewrite Hcond, Hid. cbn. rewrite <- !app_assoc. reflexivity.
Qed.

Lemma X12_log_of_the_check_witness :
  let env := Sample.env_with OtherError Sample.scoop_incomplete in
  let s1 := snd (begin_capture Sample.cfg env 9000 (enter Sample.queue)) in
  let s2 :=
    snd (finish_capture Sample.cfg env Sample.job Sample.scoop_incomplete s1) in
  port_rejected (Some 9000%Z) = false /\
  begin_capture Sample.cfg env 9000 (enter Sample.queue)
  = (Normal (Sample.job, Sample.scoop_incomplete), s1) /\
  finish_capture Sample.cfg env Sample.job Sample.scoop_incomplete s1
  = (Normal tt, s2) /\
  let fin := start_capture_process Sample.cfg env (Some 9000%Z) Sample.queue in
  let code := Some (returncode Sample.scoop_incomplete) in
  exists ms c,
    wait_bound Sample.cfg = Some ms /\
    capture fin = Some c /\
    trace fin
    = trace s1
      ++ [EvCommunicate ms]
      ++ List.map (fun f => EvPrint (MsgAttachmentNotFound f))
           (missing_attachments Sample.cfg (id_capture Sample.job) code
              (disk fin))
      ++ [EvPrint (if bool_decide (status c = success) then MsgSuccess
                   else MsgFailed
                          (first_reason Sample.cfg (id_capture Sample.job)
                             code (disk fin)));
          EvSave (id_capture Sample.job)]
      ++ webhook_events env (Some c)
      ++ [EvDelay 9000].
Proof.
  intros env s1 s2.
  assert (begin_capture Sample.cfg env 9000 (enter Sample.queue)
          = (Normal (Sample.job, Sample.scoop_incomplete), s1)) as Hb
    by (vm_compute; reflexivity).
  assert (finish_capture Sample.cfg env Sample.job Sample.scoop_incomplete s1
          = (Normal tt, s2)) as Hf
    by (vm_compute; reflexivity).
  split; [reflexivity|]. split; [exact Hb|]. split; [exact Hf|].
  exact (X12_log_of_the_check Sample.cfg env 9000 Sample.queue Sample.job
           Sample.scoop_incomplete s1 s2 eq_refl Hb Hf).
Defined.

(** X13: the summary is copied to the capture as soon as it parses.
    When Scoop has exited with code 0 and the archive and a summary that
    parses are on disk, every row of the capture ends with that summary,
    also when attachments are missing or when the summary has no
    ["attachments"] mapping and the check raises. *)
Theorem X13_summary_is_stored cfg env port s c0 p s1 ms out err doc :
  port_rejected (Some port) = false ->
  begin_capture cfg env port (enter s) = (Normal (c0, p), s1) ->
  wait_bound cfg = Some ms ->
  interrupted env = false ->
  exceeds p ms = false ->
  stdout p = Some out ->
  stderr p = Some err ->
  returncode p = 0%Z ->
  path_exists (list_to_map (written p) ∪ disk s1)
    (archive_path cfg (id_capture c0)) = true ->
  summary_at (list_to_map (written p) ∪ disk s1)
    (json_summary_path cfg (id_capture c0)) = Some doc ->
  let fin := start_capture_process cfg env (Some port) s in
  rows_of (id_capture c0) (db fin) <> [] /\
  Forall (fun r => summary r = Some doc) (rows_of (id_capture c0) (db fin)).
Proof.
  intros Hp Hb Hw Hi He Ho Hr Hcode Ha Hdoc fin. subst fin.
  rewrite (cycle_after_spawn _ _ _ _ _ _ _ Hp Hb).
  rewrite finish_capture_run, Hw, Hi. cbn zeta. rewrite He, Ho, Hr.
  apply begin_capture_Normal in Hb
    as (c & rows & _ & _ & Hc & Hid & _ & Hst & _).
  cbn [fst snd] in *. rewrite Hc. cbn [fmap option_fmap option_map].
  match goal with
  | |- context [check_capture_results _ _ _ _ ?st] =>
      rewrite (check_capture_results_run cfg env _ _ st
                 (set_stderr_logs err (set_stdout_logs out c)) eq_refl)
  end.
  cbn zeta.
  cbn [db disk trace capture with_capture with_process_returncode with_disk
       with_trace with_db id_capture set_stderr_logs set_stdout_logs].
  assert (path_exists (list_to_map (written p) ∪ disk s1)
            (json_summary_path cfg (id_capture c0)) = true) as Hj.
  { unfold summary_at in Hdoc. unfold path_exists.
    apply bool_decide_eq_true_2.
    destruct (_ !! json_summary_path cfg (id_capture c0)); [eauto|done]. }
  rewrite Hcode, Ha, Hj, Hdoc.
  rewrite bool_decide_eq_true_2 by done. cbn [andb].
  assert (forall c2 table,
            id_capture c2 = id_capture c0 -> summary c2 = Some doc ->
            rows_of (id_capture c0) table <> [] ->
            rows_of (id_capture c0) (Table.save c2 table) <> [] /\
            Forall (fun r => summary r = Some doc)
              (rows_of (id_capture c0) (Table.save c2 table))) as Hsave.
  { intros c2 table E1 E2 E3. rewrite <- E1 in *.
    destruct (save_stored c2 table E3) as [N A]. split; [done|].
    apply List.Forall_forall. intros r0 Hr0. by rewrite (A r0 Hr0). }
  assert (rows_of (id_capture c0) (db s1) <> []) as Hne
    by (rewrite <- Hid; apply Hst).
  destruct (attachments doc) as [atts|].
  - destruct (forallb _ (expected_filenames atts));
      cbn [fst snd except_clauses]; run; cbn [db with_db with_trace];
      by apply Hsave.
  - cbn [fst snd except_clauses].
    match goal with
    | |- context [except_Exception env ?st] =>
        rewrite (except_Exception_run env st _ eq_refl)
    end.
    cbn zeta.
    cbn [snd db with_db with_trace with_capture]. by apply Hsave.
Qed.

Lemma X13_summary_is_stored_witness :
  let env := Sample.env_with OtherError Sample.scoop_incomplete in
  let s1 := snd (begin_capture Sample.cfg env 9000 (enter Sample.queue)) in
  port_rejected (Some 9000%Z) = false /\
  begin_capture Sample.cfg env 9000 (enter Sample.queue)
  = (Normal (Sample.job, Sample.scoop_incomplete), s1) /\
  wait_bound Sample.cfg = Some 35000%Z /\
  interrupted env = false /\
  exceeds Sample.scoop_incomplete 35000 = false /\
  stdout Sample.scoop_incomplete = Some "capture done" /\
  stderr Sample.scoop_incomplete = Some "" /\
  returncode Sample.scoop_incomplete = 0%Z /\
  path_exists (list_to_map (written Sample.scoop_incomplete) ∪ disk s1)
    (archive_path Sample.cfg (id_capture Sample.job)) = true /\
  summary_at (list_to_map (written Sample.scoop_incomplete) ∪ disk s1)
    (json_summary_path Sample.cfg (id_capture Sample.job)) = Some Sample.doc /\
  let fin := start_capture_process Sample.cfg env (Some 9000%Z) Sample.queue in
  rows_of (id_capture Sample.job) (db fin) <> [] /\
  Forall (fun r => summary r = Some Sample.doc)
    (rows_of (id_capture Sample.job) (db fin)).
Proof.
  intros env s1.
  assert (begin_capture Sample.cfg env 9000 (enter Sample.queue)
          = (Normal (Sample.job, Sample.scoop_incomplete), s1)) as Hb
    by (vm_compute; reflexivity).
  assert (path_exists (list_to_map (written Sample.scoop_incomplete) ∪ disk s1)
            (archive_path Sample.cfg (id_capture Sample.job)) = true) as Ha
    by (vm_compute; reflexivity).
  assert (summary_at (list_to_map (written Sample.scoop_incomplete) ∪ disk s1)
            (json_summary_path Sample.cfg (id_capture Sample.job))
          = Some Sample.doc) as Hd
    by (vm_compute; reflexivity).
  split; [reflexivity|]. split; [exact Hb|].
  split; [reflexivity|]. split; [reflexivity|]. split; [reflexivity|].
  split; [reflexivity|]. split; [reflexivity|]. split; [reflexivity|].
  split; [exact Ha|]. split; [exact Hd|].
  exact (X13_summary_is_stored Sample.cfg env 9000 Sample.queue Sample.job
           Sample.scoop_incomplete s1 35000 "capture done" "" Sample.doc
           eq_refl Hb eq_refl eq_refl eq_refl eq_refl eq_refl eq_refl Ha Hd).
Defined.

(** X14: without a numeric ["--capture-timeout"] option the lookup
    raises once Scoop has been spawned: the capture is saved as
    [failed], and the child is neither waited for nor killed. *)
Theorem X14_no_capture_timeout cfg env port s c0 p s1 :
  port_rejected (Some port) = false ->
  begin_capture cfg env port (enter s) = (Normal (c0, p), s1) ->
  wait_bound cfg = None ->
  let fin := start_capture_process cfg env (Some port) s in
  trace fin
  = trace s1
    ++ [EvSave (id_capture c0); EvPrint MsgFailedOther; EvPrint MsgTraceback]
    ++ webhook_events env (capture fin)
    ++ [EvDelay port] /\
  rows_of (id_capture c0) (db fin) <> [] /\
  Forall (fun r => status r = failed) (rows_of (id_capture c0) (db fin)).
Proof.
  intros Hp Hb Hw fin. subst fin.
  rewrite (cycle_after_spawn _ _ _ _ _ _ _ Hp Hb).
  rewrite finish_capture_run, Hw. cbn [fst snd except_clauses].
  apply begin_capture_Normal in Hb
    as (c & rows & _ & _ & Hc & Hid & _ & Hst & _).
  cbn [fst snd] in *.
  rewrite (except_Exception_run env s1 c Hc). cbn zeta.
  cbn [snd db trace capture with_db with_trace with_capture].
  rewrite <- Hid. split; [by rewrite <- !app_assoc|].
  by apply failed_rows.
Qed.

Lemma X14_no_capture_timeout_witness :
  let s1 :=
    snd (begin_capture Scenario.cfg_no_timeout Sample.env 9000
           (enter Sample.queue)) in
  port_rejected (Some 9000%Z) = false /\
  begin_capture Scenario.cfg_no_timeout Sample.env 9000 (enter Sample.queue)
  = (Normal (Sample.job, Sample.scoop), s1) /\
  wait_bound Scenario.cfg_no_timeout = None /\
  let fin :=
    start_capture_process Scenario.cfg_no_timeout Sample.env (Some 9000%Z)
      Sample.queue in
  trace fin
  = trace s1
    ++ [EvSave (id_capture Sample.job); EvPrint MsgFailedOther;
        EvPrint MsgTraceback]
    ++ webhook_events Sample.env (capture fin)
    ++ [EvDelay 9000] /\
  rows_of (id_capture Sample.job) (db fin) <> [] /\
  Forall (fun r => status r = failed) (rows_of (id_capture Sample.job) (db fin)).
Proof.
  intros s1.
  assert (begin_capture Scenario.cfg_no_timeout Sample.env 9000
            (enter Sample.queue)
          = (Normal (Sample.job, Sample.scoop), s1)) as Hb
    by (vm_compute; reflexivity).
  split; [reflexivity|]. split; [exact Hb|]. split; [reflexivity|].
  exact (X14_no_capture_timeout Scenario.cfg_no_timeout Sample.env 9000
           Sample.queue Sample.job Sample.scoop s1 eq_refl Hb eq_refl).
Defined.

(** X15: an interrupt during the wait does not put the capture back
    into the queue: the bare [except] saves it as [failed].  The child
    is not killed, and the [finally] clause still schedules the next
    cycle. *)
Theorem X15_interrupted_wait cfg env port s c0 p s1 ms :
  port_rejected (Some port) = false ->
  begin_capture cfg env port (enter s) = (Normal (c0, p), s1) ->
  wait_bound cfg = Some ms ->
  interrupted env = true ->
  let fin := start_capture_process cfg env (Some port) s in
  trace fin
  = trace s1
    ++ [EvCommunicate ms; EvPrint MsgAborted; EvSave (id_capture c0)]
    ++ webhook_events env (capture fin)
    ++ [EvDelay port] /\
  rows_of (id_capture c0) (db fin) <> [] /\
  Forall (fun r => status r = failed) (rows_of (id_capture c0) (db fin)).
Proof.
  intros Hp Hb Hw Hi fin. subst fin.
  rewrite (cycle_after_spawn _ _ _ _ _ _ _ Hp Hb).
  rewrite finish_capture_run, Hw, Hi. cbn zeta. cbn [fst snd except_clauses].
  apply begin_capture_Normal in Hb
    as (c & rows & _ & _ & Hc & Hid & _ & Hst & _).
  cbn [fst snd] in *.
  match goal with
  | |- context [except_bare env ?st] =>
      rewrite (except_bare_run env st c Hc)
  end.
  cbn zeta.
  cbn [snd db trace capture with_db with_trace with_capture].
  rewrite <- Hid. split; [by rewrite <- !app_assoc|].
  destruct (bool_decide (status c ≠ failed)) eqn:E;
    apply failed_rows; try done.
  apply bool_decide_eq_false_1 in E.
  destruct (decide (status c = failed)) as [F|F]; [exact F|by destruct E].
Qed.

Lemma X15_interrupted_wait_witness :
  let s1 :=
    snd (begin_capture Sample.cfg Scenario.env_interrupted 9000
           (enter Sample.queue)) in
  port_rejected (Some 9000%Z) = false /\
  begin_capture Sample.cfg Scenario.env_interrupted 9000 (enter Sample.queue)
  = (Normal (Sample.job, Sample.scoop), s1) /\
  wait_bound Sample.cfg = Some 35000%Z /\
  interrupted Scenario.env_interrupted = true /\
  let fin :=
    start_capture_process Sample.cfg Scenario.env_interrupted (Some 9000%Z)
      Sample.queue in
  trace fin
  = trace s1
    ++ [EvCommunicate 35000; EvPrint MsgAborted; EvSave (id_capture Sample.job)]
    ++ webhook_events Scenario.env_interrupted (capture fin)
    ++ [EvDelay 9000] /\
  rows_of (id_capture Sample.job) (db fin) <> [] /\
  Forall (fun r => status r = failed) (rows_of (id_capture Sample.job) (db fin)).
Proof.
  intros s1.
  assert (begin_capture Sample.cfg Scenario.env_interrupted 9000
            (enter Sample.queue)
          = (Normal (Sample.job, Sample.scoop), s1)) as Hb
    by (vm_compute; reflexivity).
  split; [reflexivity|]. split; [exact Hb|]. split; [reflexivity|].
  split; [reflexivity|].
  exact (X15_interrupted_wait Sample.cfg Scenario.env_interrupted 9000
           Sample.queue Sample.job Sample.scoop s1 35000 eq_refl Hb eq_refl
           eq_refl).
Defined.

(** ** The disk across a cycle *)

Lemma path_exists_insert d p f q :
  path_exists d q = true -> path_exists (<[p := f]> d) q = true.
Proof.
  unfold path_exists. intros H. apply bool_decide_eq_true_1 in H.
  apply bool_decide_eq_true_2.
  destruct (decide (p = q)) as [->|Hne].
  - rewrite lookup_insert_eq. eauto.
  - by rewrite lookup_insert_ne.
Qed.

Lemma path_exists_union (m d : gmap string File) q :
  path_exists d q = true -> path_exists (m ∪ d) q = true.
Proof.
  unfold path_exists. intros H. apply bool_decide_eq_true_1 in H.
  apply bool_decide_eq_true_2. destruct H as [f Hf].
  destruct (m !! q) as [g|] eqn:E.
  - exists g. by apply lookup_union_Some_l.
  - exists f. rewrite lookup_union_r; done.
Qed.

Lemma spawned_app t1 t2 : spawned (t1 ++ t2) = spawned t1 ++ spawned t2.
Proof. apply omap_app. Qed.

Lemma spawned_webhook_events env c : spawned (webhook_events env c) = [].
Proof.
  unfold webhook_events. destruct c as [c|]; [|done].
  destruct (callback_of (Some c)) as [u|]; [|done].
  by destruct (post env u).
Qed.

(** The claim stops at the first [makedirs] when the storage folder is
    there already. *)
Lemma claim_and_spawn_folder_exists cfg env port c0 s :
  path_exists (disk s) (storage_path cfg (id_capture c0)) = true ->
  exists s' c,
    claim_and_spawn cfg env port c0 s = (Raise OtherException, s') /\
    capture s' = Some c /\
    id_capture c = id_capture c0 /\
    disk s' = disk s /\
    spawned (trace s') = spawned (trace s).
Proof.
  intros Hf.
  unfold claim_and_spawn, mark_started, makedirs, spawn, assign, save_capture.
  run.
  destruct (Table.get _ _) as [fresh|] eqn:G; run.
  - apply get_Some in G as [Hid _].
    cbn [fmap option_fmap option_map]. run. rewrite Hf.
    eexists _, _. split; [reflexivity|]. cbn.
    repeat split; try done.
    unfold spawned. rewrite !omap_app. cbn. by rewrite !app_nil_r.
  - eexists _, _. split; [reflexivity|]. cbn.
    repeat split; try done.
    unfold spawned. rewrite !omap_app. cbn. by rewrite !app_nil_r.
Qed.

Lemma claim_and_spawn_keeps_files cfg env port c0 s q :
  path_exists (disk s) q = true ->
  path_exists (disk (snd (claim_and_spawn cfg env port c0 s))) q = true.
Proof.
  intros Hq.
  unfold claim_and_spawn, mark_started, makedirs, spawn, assign, save_capture.
  run.
  destruct (Table.get _ _) as [fresh|]; run; [|done].
  cbn [fmap option_fmap option_map]. run.
  destruct (path_exists (disk s) (storage_path cfg (id_capture c0)));
    run; [done|].
  match goal with
  | |- context [if path_exists ?d ?p then _ else _] =>
      destruct (path_exists d p)
  end; run; [by apply path_exists_insert|].
  destruct (popen env _); run; by do 2 apply path_exists_insert.
Qed.

Lemma except_clauses_disk env r s :
  is_Some (capture s) ->
  disk (snd (except_clauses env r s)) = disk s.
Proof.
  intros [c Hc]. destruct r as [[]| |e]; try reflexivity.
  by destruct (except_clauses_Raise env e s c Hc) as (c' & _ & _ & _ & _ & _ & _ & _ & H & _).
Qed.

Lemma try_except_keeps_files cfg env port s q :
  path_exists (disk s) q = true ->
  path_exists (disk (try_except cfg env port s)) q = true.
Proof.
  intros Hq. unfold try_except, try_block. rewrite run_bind.
  destruct (sentinel_present cfg s) eqn:Hs.
  { by rewrite begin_capture_sentinel. }
  destruct (Table.select_pending (db s)) as [|c0 rest] eqn:Hsel.
  { by rewrite begin_capture_idle. }
  destruct (proxy_port_is_available (head env port)) eqn:Hp.
  2: { rewrite begin_capture_busy; [done|done|by rewrite Hsel|done]. }
  rewrite (begin_capture_free cfg env port s c0 rest) by done.
  set (s0 := with_trace _ s).
  pose proof (claim_and_spawn_keeps_files cfg env port c0 s0 q Hq) as Hk.
  destruct (claim_and_spawn_capture cfg env port c0 s0) as [Hnr Hc1].
  destruct (claim_and_spawn cfg env port c0 s0) as [[job| |e] s1] eqn:Hcs;
    cbn [fst snd] in *; [| done | by rewrite except_clauses_disk].
  rewrite finish_capture_run.
  destruct (wait_bound cfg) as [ms|]; cbn zeta;
    [|by rewrite except_clauses_disk].
  destruct (interrupted env); [by rewrite except_clauses_disk|].
  destruct (exceeds job.2 ms); [by rewrite except_clauses_disk|].
  destruct Hc1 as [c1 Hc1].
  destruct (stdout job.2) as [out|];
    [|rewrite except_clauses_disk by eauto; by apply path_exists_union].
  rewrite Hc1. cbn [fmap option_fmap option_map].
  destruct (stderr job.2) as [err|];
    [|rewrite except_clauses_disk by eauto; by apply path_exists_union].
  match goal with
  | |- context [check_capture_results _ _ _ _ ?st] => set (s3 := st)
  end.
  destruct (check_capture_results_outcome cfg env (id_capture job.1)
              (Some (returncode job.2)) s3
              (set_stderr_logs err (set_stdout_logs out c1)) eq_refl)
    as (c' & s' & r & Hrun & Hc' & _ & _ & _ & _ & _ & Hd & _).
  rewrite Hrun. cbn [fst snd].
  rewrite except_clauses_disk by eauto. rewrite Hd.
  by apply path_exists_union.
Qed.

(** X16: a storage folder left on disk fails the capture before Scoop is
    spawned.  [os.makedirs] is called without [exist_ok]: when the folder
    of the picked capture exists, the cycle spawns no child, leaves the
    disk as it is and saves every row of the capture as [failed]. *)
Theorem X16_leftover_storage_folder cfg env port s c0 rest :
  port_rejected (Some port) = false ->
  sentinel_present cfg s = false ->
  Table.select_pending (db s) = c0 :: rest ->
  proxy_port_is_available (head env port) = true ->
  path_exists (disk s) (storage_path cfg (id_capture c0)) = true ->
  let fin := start_capture_process cfg env (Some port) s in
  spawned (trace fin) = spawned (trace s) /\
  disk fin = disk s /\
  Forall (fun r => status r = failed) (rows_of (id_capture c0) (db fin)).
Proof.
  intros Hp Hs Hq Ha Hf fin. subst fin.
  rewrite start_capture_process_accepted by done. cbn zeta.
  unfold try_except, try_block. rewrite run_bind.
  rewrite (begin_capture_free cfg env port (enter s) c0 rest) by done.
  set (s0 := with_trace _ (enter s)).
  destruct (claim_and_spawn_folder_exists cfg env port c0 s0 Hf)
    as (s1 & c & -> & Hc & Hid & Hd & Ht).
  cbn [fst snd except_clauses].
  rewrite (except_Exception_run env s1 c Hc). cbn zeta.
  cbn [snd db disk trace capture with_db with_trace with_capture].
  repeat split.
  - rewrite !spawned_app, spawned_webhook_events, Ht. subst s0.
    cbn [trace with_trace enter with_process_returncode with_process
         with_capture].
    rewrite spawned_app. cbn. by rewrite !app_nil_r.
  - by rewrite Hd.
  - rewrite <- Hid.
    change (id_capture c)
      with (id_capture (set_ended_timestamp (utcnow_ended env)
                          (set_status failed c))).
    rewrite rows_of_save. apply List.Forall_forall. intros r Hr.
    by apply in_map_iff in Hr as (? & <- & _).
Qed.

Lemma X16_leftover_storage_folder_witness :
  port_rejected (Some 9000%Z) = false /\
  sentinel_present Sample.cfg Scenario.queue_with_folder = false /\
  Table.select_pending (db Scenario.queue_with_folder) = Sample.job :: [] /\
  proxy_port_is_available (head Sample.env 9000) = true /\
  path_exists (disk Scenario.queue_with_folder)
    (storage_path Sample.cfg (id_capture Sample.job)) = true /\
  let fin :=
    start_capture_process Sample.cfg Sample.env (Some 9000%Z)
      Scenario.queue_with_folder in
  spawned (trace fin) = spawned (trace Scenario.queue_with_folder) /\
  disk fin = disk Scenario.queue_with_folder /\
  Forall (fun r => status r = failed) (rows_of (id_capture Sample.job) (db fin)).
Proof.
  assert (path_exists (disk Scenario.queue_with_folder)
            (storage_path Sample.cfg (id_capture Sample.job)) = true) as Hf
    by (vm_compute; reflexivity).
  split; [reflexivity|]. split; [vm_compute; reflexivity|].
  split; [reflexivity|]. split; [reflexivity|]. split; [exact Hf|].
  exact (X16_leftover_storage_folder Sample.cfg Sample.env 9000
           Scenario.queue_with_folder Sample.job [] eq_refl eq_refl eq_refl
           eq_refl Hf).
Defined.

(** X17: a cycle deletes nothing: every path that exists when the cycle
    starts exists when it ends, whatever the path of the cycle. *)
Theorem X17_cycle_keeps_files cfg env port s q :
  path_exists (disk s) q = true ->
  path_exists (disk (start_capture_process cfg env port s)) q = true.
Proof.
  intros Hq.
  destruct (port_rejected port) eqn:Hp.
  { by rewrite start_capture_process_rejected. }
  destruct port as [port|]; [|discriminate].
  rewrite start_capture_process_accepted by done. cbn zeta. cbn [disk with_trace].
  by apply try_except_keeps_files.
Qed.

Lemma X17_cycle_keeps_files_witness :
  path_exists (disk Scenario.queue_with_folder) "/tmp/scoop/7" = true /\
  path_exists
    (disk (start_capture_process Sample.cfg Sample.env (Some 9000%Z)
             Scenario.queue_with_folder)) "/tmp/scoop/7" = true.
Proof.
  assert (path_exists (disk Scenario.queue_with_folder) "/tmp/scoop/7" = true)
    as Hq by (vm_compute; reflexivity).
  split; [exact Hq|].
  exact (X17_cycle_keeps_files Sample.cfg Sample.env (Some 9000%Z)
           Scenario.queue_with_folder "/tmp/scoop/7" Hq).
Defined.

(** ** The claims *)

(** C1, as documented, fails on cycles that run Scoop: with exit code 0
    and the archive, the summary and every listed attachment on disk,
    the capture still ends [failed] when the standard output of Scoop is
    not UTF-8, and when the summary is not JSON. *)
Lemma C1_conjuncts_counterexample :
  (let p := Scenario.scoop_undecodable in
   let fin :=
     start_capture_process Sample.cfg (Sample.env_with OtherError p)
       (Some 9000%Z) Sample.queue in
   length (spawned (trace fin)) = 1%nat /\
   all_conjuncts Sample.cfg (id_capture Sample.job) (Some (returncode p))
     (disk fin) /\
   List.map status (db fin) = [failed]) /\
  (let p := Scenario.scoop_bad_summary in
   let fin :=
     start_capture_process Sample.cfg (Sample.env_with OtherError p)
       (Some 9000%Z) Sample.queue in
   length (spawned (trace fin)) = 1%nat /\
   all_conjuncts Sample.cfg (id_capture Sample.job) (Some (returncode p))
     (disk fin) /\
   List.map status (db fin) = [failed]).
Proof.
  split.
  - vm_compute. repeat split; try reflexivity.
    intros f [<-|[<-|[<-|[]]]]; reflexivity.
  - vm_compute. repeat split; try reflexivity.
    intros f [].
Qed.

(** C1, amended: in a cycle that spawns Scoop, every row of the capture
    ends with status [success] exactly when the check of the results is
    reached (the timeout of the wait can be computed, the wait is not
    interrupted, Scoop exits within the bound, both streams decode), the
    exit code is 0, the archive exists, the summary exists, parses and
    has an ["attachments"] mapping, and every filename of that mapping
    exists in the attachments folder; in every other case it ends with
    status [failed].  When the check is reached every missing attachment
    is reported: the check does not stop at the first one. *)
Theorem C1_success_iff_check_passes cfg env port s c0 p s1 :
  port_rejected (Some port) = false ->
  begin_capture cfg env port (enter s) = (Normal (c0, p), s1) ->
  let fin := start_capture_process cfg env (Some port) s in
  let verdict :=
    check_reached cfg env p = true /\
    summary_usable cfg (id_capture c0) (disk fin) = true /\
    all_conjuncts cfg (id_capture c0) (Some (returncode p)) (disk fin) in
  rows_of (id_capture c0) (db fin) <> [] /\
  (forall r, In r (rows_of (id_capture c0) (db fin)) ->
     (status r = success <-> verdict) /\ (~ verdict -> status r = failed)) /\
  reported_missing (trace fin)
  = reported_missing (trace s)
    ++ (if check_reached cfg env p
        then missing_attachments cfg (id_capture c0) (Some (returncode p))
               (disk fin)
        else []).
Proof.
  intros Hp Hb fin verdict. subst verdict fin.
  rewrite (cycle_after_spawn _ _ _ _ _ _ _ Hp Hb). cbn zeta.
  cbn [db disk trace with_trace].
  apply begin_capture_Normal in Hb
    as (c & rows & _ & _ & Hc & Hid & _ & Hst & _ & _ & _ & Ht).
  cbn [fst snd] in *.
  assert (reported_missing (trace s1) = reported_missing (trace s)) as Hrep1.
  { rewrite Ht, !reported_missing_app, reported_missing_preparation. cbn.
    by rewrite !app_nil_r. }
  (* what a cycle that raises leaves *)
  assert (forall e st (P : Prop),
            (exists c2, capture st = Some c2 /\ id_capture c2 = id_capture c) ->
            db st = db s1 ->
            reported_missing (trace st) = reported_missing (trace s) ->
            ~ P ->
            rows_of (id_capture c0)
              (db (snd (except_clauses env (Raise e) st))) <> [] /\
            (forall r,
               In r (rows_of (id_capture c0)
                       (db (snd (except_clauses env (Raise e) st)))) ->
               (status r = success <-> P) /\ (~ P -> status r = failed)) /\
            reported_missing
              (trace (snd (except_clauses env (Raise e) st))
               ++ webhook_events env
                    (capture (snd (except_clauses env (Raise e) st)))
               ++ [EvDelay port])
            = reported_missing (trace s) ++ []) as Hraise.
  { intros e st P (c2 & Hc2 & Hid2) Hdb Hrep HP.
    destruct (except_clauses_failed env e st c2 Hc2) as (N & F & _ & R).
    { rewrite Hdb, Hid2. apply Hst. }
    cbn zeta in *. rewrite Hid2, Hid in N, F.
    split; [exact N|]. split.
    - intros r Hr. rewrite List.Forall_forall in F. specialize (F r Hr).
      split; [|done]. split; [congruence|done].
    - rewrite !reported_missing_app, R, Hrep.
      destruct (webhook_events_quiet env
        (capture (snd (except_clauses env (Raise e) st)))) as [_ ->].
      cbn. by rewrite !app_nil_r. }
  rewrite finish_capture_run. unfold check_reached.
  destruct (wait_bound cfg) as [ms|]; cbn zeta.
  2: { cbn [fst snd]. apply Hraise; eauto. by intros [? _]. }
  set (sc := with_trace (trace s1 ++ [EvCommunicate ms]) s1).
  assert (reported_missing (trace sc) = reported_missing (trace s)) as Hrepc.
  { subst sc. cbn [trace with_trace]. rewrite reported_missing_app, Hrep1. cbn.
    by rewrite app_nil_r. }
  destruct (interrupted env); cbn [negb andb].
  { cbn [fst snd]. apply Hraise; eauto. by intros [? _]. }
  destruct (exceeds p ms); cbn [negb andb].
  { cbn [fst snd]. apply Hraise; eauto. by intros [? _]. }
  destruct (stdout p) as [out|].
  2: { rewrite bool_decide_eq_false_2 by (by intros [? ?]). cbn [andb].
       cbn [fst snd]. apply Hraise; eauto. by intros [? _]. }
  rewrite bool_decide_eq_true_2 by eauto. cbn [andb].
  rewrite Hc. cbn [fmap option_fmap option_map].
  destruct (stderr p) as [err|].
  2: { rewrite bool_decide_eq_false_2 by (by intros [? ?]).
       cbn [fst snd]. apply Hraise; eauto. by intros [? _]. }
  rewrite bool_decide_eq_true_2 by eauto.
  match goal with
  | |- context [check_capture_results _ _ _ _ ?st] =>
      rewrite (check_capture_results_run cfg env _ _ st
                 (set_stderr_logs err (set_stdout_logs out c)) eq_refl);
      set (s3 := st)
  end.
  cbn zeta.
  set (D := list_to_map (written p) ∪ disk s1) in *.
  set (code := Some (returncode p)) in *.
  assert (disk s3 = D) as HD by reflexivity.
  assert (db s3 = db s1) as Hdb3 by reflexivity.
  assert (reported_missing (trace s3) = reported_missing (trace s)) as Hrep3
    by exact Hrepc.
  assert (capture s3 = Some (set_stderr_logs err (set_stdout_logs out c)))
    as Hc3 by reflexivity.
  rewrite !HD. clearbody s3.
  (* what a check that reaches its end leaves *)
  assert (forall v evs c2 (P : Prop) L,
            id_capture c2 = id_capture c0 ->
            (v = success <-> P) -> (~ P -> v = failed) ->
            reported_missing evs = L ->
            let st :=
              with_db (Table.save (set_status v c2) (db s3))
                (with_trace
                   (trace s3 ++ evs
                    ++ [EvSave (id_capture
                                  (set_stderr_logs err (set_stdout_logs out c)))])
                   (with_capture (Some (set_status v c2)) s3)) in
            rows_of (id_capture c0) (db st) <> [] /\
            (forall r, In r (rows_of (id_capture c0) (db st)) ->
               (status r = success <-> P) /\ (~ P -> status r = failed)) /\
            reported_missing
              (trace st ++ webhook_events env (capture st) ++ [EvDelay port])
            = reported_missing (trace s) ++ L) as Hnormal.
  { intros v evs c2 P L Hid2 Hiff Hnot HL st. subst st.
    cbn [db trace capture with_db with_trace with_capture].
    destruct (save_stored (set_status v c2) (db s3)) as [N A].
    { cbn [id_capture set_status]. rewrite Hid2, <- Hid, Hdb3. apply Hst. }
    cbn [id_capture set_status] in N, A. rewrite Hid2 in N, A.
    split; [exact N|]. split.
    - intros r Hr. rewrite (A r Hr). cbn [status set_status]. by split.
    - rewrite !reported_missing_app, Hrep3, HL.
      destruct (webhook_events_quiet env (Some (set_status v c2))) as [_ ->].
      cbn. by rewrite !app_nil_r. }
  unfold missing_attachments, all_conjuncts.
  destruct (bool_decide (code = Some 0%Z)
            && path_exists D (archive_path cfg (id_capture c0))
            && path_exists D (json_summary_path cfg (id_capture c0))) eqn:Hcond.
  2: { cbn beta. cbn [fst snd except_clauses]. run. rewrite ?HD.
       apply Hnormal.
       - exact Hid.
       - split; [done|]. intros (_ & _ & H1 & H2 & H3 & _).
         rewrite (bool_decide_eq_true_2 _ H1), H2, H3 in Hcond. discriminate.
       - done.
       - by rewrite Hcond. }
  apply andb_true_iff in Hcond as [Hcond Hj].
  apply andb_true_iff in Hcond as [Hcode Ha].
  apply bool_decide_eq_true_1 in Hcode.
  destruct (summary_at D (json_summary_path cfg (id_capture c0)))
    as [doc|] eqn:Hdoc.
  2: { cbn [fst snd]. rewrite !except_clauses_disk by (cbn; eauto).
       cbn [disk with_capture]. rewrite ?HD.
       rewrite expected_attachments_summary_at, Hdoc.
       rewrite (bool_decide_eq_true_2 _ Hcode), Ha, Hj. cbn [andb].
       apply Hraise;
         [ eexists; split; reflexivity | exact Hdb3 | exact Hrep3 |].
       unfold summary_usable. rewrite Hdoc. by intros (_ & ? & _). }
  destruct (attachments doc) as [atts|] eqn:Hatts.
  2: { cbn [fst snd]. rewrite !except_clauses_disk by (cbn; eauto).
       cbn [disk with_capture]. rewrite ?HD.
       rewrite expected_attachments_summary_at, Hdoc, Hatts.
       rewrite (bool_decide_eq_true_2 _ Hcode), Ha, Hj. cbn [andb].
       apply Hraise;
         [ eexists; split; reflexivity | exact Hdb3 | exact Hrep3 |].
       unfold summary_usable. rewrite Hdoc, Hatts.
       intros (_ & H & _). apply bool_decide_eq_true_1 in H. by destruct H. }
  assert (summary_usable cfg (id_capture c0) D = true) as Hu.
  { unfold summary_usable. rewrite Hdoc, Hatts.
    apply bool_decide_eq_true_2. eauto. }
  destruct (forallb _ (expected_filenames atts)) eqn:Hall;
    cbn beta; cbn [fst snd except_clauses]; run; rewrite ?HD;
    rewrite !expected_attachments_summary_at, Hdoc, Hatts;
    rewrite (bool_decide_eq_true_2 _ Hcode), Ha, Hj; cbn [andb];
    apply Hnormal; try exact Hid.
  - split; [|done]. intros _. repeat split; try done.
    intros f Hf. rewrite forallb_forall in Hall. by apply Hall.
  - intros Hn. destruct Hn. repeat split; try done.
    intros f Hf. rewrite forallb_forall in Hall. by apply Hall.
  - rewrite reported_missing_app, reported_missing_prints. cbn.
    by rewrite app_nil_r.
  - split; [done|]. intros (_ & _ & _ & _ & _ & Hfs).
    assert (forallb
      (fun f => path_exists D
                  (attachments_path cfg (id_capture c0) +:+ sep +:+ f))
      (expected_filenames atts) = true) as E
      by (apply forallb_forall; exact Hfs).
    congruence.
  - done.
  - rewrite reported_missing_app, reported_missing_prints. cbn.
    by rewrite app_nil_r.
Qed.

Lemma C1_success_witness :
  let s1 := snd (begin_capture Sample.cfg Sample.env 9000 (enter Sample.queue)) in
  port_rejected (Some 9000%Z) = false /\
  begin_capture Sample.cfg Sample.env 9000 (enter Sample.queue)
  = (Normal (Sample.job, Sample.scoop), s1) /\
  let fin :=
    start_capture_process Sample.cfg Sample.env (Some 9000%Z) Sample.queue in
  let verdict :=
    check_reached Sample.cfg Sample.env Sample.scoop = true /\
    summary_usable Sample.cfg (id_capture Sample.job) (disk fin) = true /\
    all_conjuncts Sample.cfg (id_capture Sample.job)
      (Some (returncode Sample.scoop)) (disk fin) in
  rows_of (id_capture Sample.job) (db fin) <> [] /\
  (forall r, In r (rows_of (id_capture Sample.job) (db fin)) ->
     (status r = success <-> verdict) /\ (~ verdict -> status r = failed)) /\
  reported_missing (trace fin)
  = reported_missing (trace Sample.queue)
    ++ (if check_reached Sample.cfg Sample.env Sample.scoop
        then missing_attachments Sample.cfg (id_capture Sample.job)
               (Some (returncode Sample.scoop)) (disk fin)
        else []).
Proof.
  intros s1.
  assert (begin_capture Sample.cfg Sample.env 9000 (enter Sample.queue)
          = (Normal (Sample.job, Sample.scoop), s1)) as Hb
    by (vm_compute; reflexivity).
  split; [reflexivity|]. split; [exact Hb|].
  exact (C1_success_iff_check_passes Sample.cfg Sample.env 9000 Sample.queue
           Sample.job Sample.scoop s1 eq_refl Hb).
Defined.

(** C2: with the sentinel present at the start of the cycle no capture is
    read or claimed and the table is left as it was, but the [finally]
    clause still runs after the [return] and schedules the next cycle on
    the same port. *)
Theorem C2_sentinel_cycle_is_rescheduled :
  let fin :=
    start_capture_process Sample.cfg Sample.env (Some 9000%Z)
      Sample.queue_sentinel in
  sentinel_present Sample.cfg Sample.queue_sentinel = true /\
  db fin = db Sample.queue_sentinel /\
  trace fin = [EvPrint MsgSentinel; EvDelay 9000] /\
  scheduled (trace fin) = [9000%Z].
Proof. vm_compute. by repeat split. Qed.

(** C3, as documented, fails for a probe that gets a response: the task
    classifies the port as in use, not as free. *)
Lemma C3_response_counterexample :
  proxy_port_is_available Responded <> documented_port_is_free Responded.
Proof. discriminate. Qed.

(** C3, amended: a read timeout and a response both classify the port
    as in use, any other failure of the probe classifies it as free.
    With a pending capture the cycle goes on to the claim exactly when
    the port is free, and returns otherwise. *)
Theorem C3_port_probe_classification :
  proxy_port_is_available ReadTimeout = false /\
  proxy_port_is_available OtherError = true /\
  proxy_port_is_available Responded = false /\
  forall env port c rest s,
    fst (check_proxy_port env port (c :: rest) s)
    = match head env port with
      | OtherError => Normal tt
      | ReadTimeout | Responded => Return
      end.
Proof.
  repeat split. intros env port c rest s.
  unfold check_proxy_port. cbn [length Nat.eqb negb]. run.
  by destruct (head env port).
Qed.

(** C4: when another worker has claimed the capture since it was
    selected, the conditional update changes no row; the task does not
    look at the count: it re-reads the capture, overwrites its start
    time, spawns Scoop for it and gives it a final status. *)
Theorem C4_lost_claim_is_processed :
  let fin :=
    start_capture_process Sample.cfg Sample.env_race (Some 9000%Z) Sample.queue in
  Table.update_started "7" (other_workers Sample.env_race (db Sample.queue))
  = ([set_started_timestamp 150 (set_status started Sample.job)], 0%nat) /\
  In (EvUpdateStarted "7" 0) (trace fin) /\
  In (EvPopen (scoop_args Sample.cfg 9000
                 (set_started_timestamp 200 (set_status started Sample.job))))
     (trace fin) /\
  List.map started_timestamp (db fin) = [Some 200%Z] /\
  List.map status (db fin) = [success].
Proof.
  vm_compute. repeat split; try reflexivity;
    repeat (first [left; reflexivity | right]).
Qed.

(** C5, as documented, fails for a child that never exits: the only
    action on the child is one kill; no terminate signal is sent and
    there is no pause of five seconds before the kill. *)
Lemma C5_timeout_counterexample :
  let env := Sample.env_with OtherError Sample.scoop_hung in
  let fin := start_capture_process Sample.cfg env (Some 9000%Z) Sample.queue in
  exceeds Sample.scoop_hung (30000 + 1000 * 5) = true /\
  supervision (trace fin) = [EvKill] /\
  supervision (trace fin) <> documented_timeout_supervision.
Proof. vm_compute. repeat split. discriminate. Qed.

(** C5, amended: when the child outlives the bound (capture timeout plus
    fuse), the task sends it one kill signal and no terminate signal,
    and every row of the capture ends with status [failed]. *)
Theorem C5_timeout_is_killed_and_failed cfg env port s c0 p s1 ms :
  port_rejected (Some port) = false ->
  begin_capture cfg env port (enter s) = (Normal (c0, p), s1) ->
  wait_bound cfg = Some ms ->
  interrupted env = false ->
  exceeds p ms = true ->
  let fin := start_capture_process cfg env (Some port) s in
  signals (trace fin) = signals (trace s) ++ [EvKill] /\
  rows_of (id_capture c0) (db fin) <> [] /\
  Forall (fun r => status r = failed) (rows_of (id_capture c0) (db fin)).
Proof.
  intros Hp Hb Hw Hi He fin. subst fin.
  rewrite (cycle_after_spawn _ _ _ _ _ _ _ Hp Hb).
  rewrite finish_capture_run, Hw, Hi. cbn zeta. rewrite He.
  cbn [fst snd].
  apply begin_capture_Normal in Hb
    as (c & rows & _ & _ & Hc & Hid & _ & Hst & Hpr & _ & _ & Ht).
  cbn [fst snd] in *.
  set (s1' := with_trace (trace s1 ++ [EvCommunicate ms]) s1).
  destruct (except_clauses_Raise env TimeoutExpired s1' c Hc)
    as (c' & Hc' & Hf & Hid' & _ & _ & _ & Hdb & _ & Hsup).
  cbn zeta in *. cbn [db trace with_trace].
  split; [|split].
  - rewrite <- signals_supervision, !supervision_app, Hsup.
    destruct (webhook_events_quiet env
      (capture (snd (except_clauses env (Raise TimeoutExpired) s1')))) as [-> _].
    subst s1'. cbn [trace with_trace process]. rewrite Hpr.
    rewrite !supervision_app, Ht, !supervision_app. cbn.
    rewrite !app_nil_r, signals_app, signals_supervision. reflexivity.
  - rewrite Hdb. apply rows_of_save_nonempty. cbn [db].
    rewrite <- Hid. apply Hst.
  - rewrite Hdb. cbn [db]. rewrite <- Hid, <- Hid'.
    apply stored_status; [|done]. apply save_stored.
    rewrite Hid'. apply Hst.
Qed.

Lemma C5_timeout_witness :
  let env := Sample.env_with OtherError Sample.scoop_hung in
  let s1 := snd (begin_capture Sample.cfg env 9000 (enter Sample.queue)) in
  port_rejected (Some 9000%Z) = false /\
  begin_capture Sample.cfg env 9000 (enter Sample.queue)
  = (Normal (Sample.job, Sample.scoop_hung), s1) /\
  wait_bound Sample.cfg = Some 35000%Z /\
  interrupted env = false /\
  exceeds Sample.scoop_hung 35000 = true /\
  let fin := start_capture_process Sample.cfg env (Some 9000%Z) Sample.queue in
  signals (trace fin) = signals (trace Sample.queue) ++ [EvKill] /\
  rows_of (id_capture Sample.job) (db fin) <> [] /\
  Forall (fun r => status r = failed) (rows_of (id_capture Sample.job) (db fin)).
Proof.
  intros env s1.
  assert (begin_capture Sample.cfg env 9000 (enter Sample.queue)
          = (Normal (Sample.job, Sample.scoop_hung), s1)) as Hb
    by (vm_compute; reflexivity).
  split; [reflexivity|]. split; [exact Hb|].
  split; [reflexivity|]. split; [reflexivity|]. split; [reflexivity|].
  exact (C5_timeout_is_killed_and_failed Sample.cfg env 9000 Sample.queue
           Sample.job Sample.scoop_hung s1 35000 eq_refl Hb eq_refl eq_refl eq_refl).
Defined.

(** C6: with a pending capture and a port classified as in use, no
    capture is claimed and the table is left as it was; a cycle is
    scheduled on [port + 1], and the [finally] clause, which runs after
    the [return], schedules a second one on the port itself. *)
Theorem C6_port_in_use_schedules_twice :
  let env := Sample.env_with ReadTimeout Sample.scoop in
  let fin := start_capture_process Sample.cfg env (Some 9000%Z) Sample.queue in
  Table.select_pending (db Sample.queue) = [Sample.job] /\
  proxy_port_is_available (head env 9000) = false /\
  db fin = db Sample.queue /\
  trace fin
  = [EvSelectPending; EvHead 9000 1; EvPrint (MsgPortInUse 9000);
     EvDelay 9001; EvDelay 9000] /\
  scheduled (trace fin) = [9001%Z; 9000%Z].
Proof. vm_compute. by repeat split. Qed.

(** C7, as documented, fails twice.  The exit code is not written to the
    capture: two runs that differ in the exit code only leave the same
    table.  And on the timeout path the streams of the child are not
    written either. *)
Lemma C7_persistence_counterexample :
  db (start_capture_process Sample.cfg
        (Sample.env_with OtherError (Sample.scoop_exit 1)) (Some 9000%Z) Sample.queue)
  = db (start_capture_process Sample.cfg
          (Sample.env_with OtherError (Sample.scoop_exit 2)) (Some 9000%Z) Sample.queue)
  /\
  let env := Sample.env_with OtherError Sample.scoop_hung in
  let fin := start_capture_process Sample.cfg env (Some 9000%Z) Sample.queue in
  (exists args, In (EvPopen args) (trace fin)) /\
  stdout Sample.scoop_hung = Some "partial output" /\
  List.map stdout_logs (db fin) = [None] /\
  List.map stderr_logs (db fin) = [None].
Proof.
  split; [vm_compute; reflexivity|].
  vm_compute. repeat split; try reflexivity.
  eexists. do 9 right. left. reflexivity.
Qed.

(** C7, amended: when the child exits within the bound and its streams
    decode, both streams are written to every row of the capture,
    whether the check of the results passes, fails or raises. *)
Theorem C7_streams_stored_when_scoop_exits cfg env port s c0 p s1 ms out err :
  port_rejected (Some port) = false ->
  begin_capture cfg env port (enter s) = (Normal (c0, p), s1) ->
  wait_bound cfg = Some ms ->
  interrupted env = false ->
  exceeds p ms = false ->
  stdout p = Some out ->
  stderr p = Some err ->
  let fin := start_capture_process cfg env (Some port) s in
  rows_of (id_capture c0) (db fin) <> [] /\
  Forall (fun r => stdout_logs r = Some out /\ stderr_logs r = Some err)
    (rows_of (id_capture c0) (db fin)).
Proof.
  intros Hp Hb Hw Hi He Ho Hr fin. subst fin.
  rewrite (cycle_after_spawn _ _ _ _ _ _ _ Hp Hb).
  rewrite finish_capture_run, Hw, Hi. cbn zeta. rewrite He, Ho, Hr.
  apply begin_capture_Normal in Hb
    as (c & rows & _ & _ & Hc & Hid & _ & Hst & _).
  cbn [fst snd] in *. rewrite Hc. cbn [fmap option_fmap option_map].
  match goal with
  | |- context [check_capture_results _ _ _ _ ?st] => set (s3 := st)
  end.
  destruct (check_capture_results_outcome cfg env (id_capture c0)
              (Some (returncode p)) s3
              (set_stderr_logs err (set_stdout_logs out c)) eq_refl)
    as (c' & s' & r & Hrun & Hc' & Hid' & Hout & Herr & _ & _ & _ & Hcases).
  rewrite Hrun. cbn [fst snd]. cbn in Hid', Hout, Herr.
  assert (rows_of (id_capture c0) (db s3) <> []) as Hne
    by (subst s3; cbn [db]; rewrite <- Hid; apply Hst).
  assert (forall c2 table,
            id_capture c2 = id_capture c0 ->
            stdout_logs c2 = Some out -> stderr_logs c2 = Some err ->
            rows_of (id_capture c0) table <> [] ->
            rows_of (id_capture c0) (Table.save c2 table) <> [] /\
            Forall (fun r => stdout_logs r = Some out /\ stderr_logs r = Some err)
              (rows_of (id_capture c0) (Table.save c2 table))) as Hsave.
  { intros c2 table E1 E2 E3 E4. rewrite <- E1 in *.
    destruct (save_stored c2 table E4) as [N A]. split; [done|].
    apply List.Forall_forall. intros r0 Hr0. by rewrite (A r0 Hr0). }
  destruct Hcases as [(-> & Hdb & _)|(-> & Hdb)]; cbn [except_clauses].
  - run. cbn [db]. rewrite Hdb. apply Hsave; congruence.
  - destruct (except_clauses_Raise env OtherException s' c' Hc')
      as (c'' & _ & _ & Hid'' & Hout'' & Herr'' & _ & Hdb'' & _).
    cbn zeta in Hdb''. cbn [except_clauses] in Hdb''.
    cbn [db with_trace]. rewrite Hdb'', Hdb. apply Hsave; congruence.
Qed.

Lemma C7_streams_stored_witness :
  let s1 := snd (begin_capture Sample.cfg Sample.env 9000 (enter Sample.queue)) in
  port_rejected (Some 9000%Z) = false /\
  begin_capture Sample.cfg Sample.env 9000 (enter Sample.queue)
  = (Normal (Sample.job, Sample.scoop), s1) /\
  wait_bound Sample.cfg = Some 35000%Z /\
  interrupted Sample.env = false /\
  exceeds Sample.scoop 35000 = false /\
  stdout Sample.scoop = Some "capture done" /\
  stderr Sample.scoop = Some "" /\
  let fin :=
    start_capture_process Sample.cfg Sample.env (Some 9000%Z) Sample.queue in
  rows_of (id_capture Sample.job) (db fin) <> [] /\
  Forall (fun r => stdout_logs r = Some "capture done" /\ stderr_logs r = Some "")
    (rows_of (id_capture Sample.job) (db fin)).
Proof.
  intros s1.
  assert (begin_capture Sample.cfg Sample.env 9000 (enter Sample.queue)
          = (Normal (Sample.job, Sample.scoop), s1)) as Hb
    by (vm_compute; reflexivity).
  split; [reflexivity|]. split; [exact Hb|].
  split; [reflexivity|]. split; [reflexivity|]. split; [reflexivity|].
  split; [reflexivity|]. split; [reflexivity|].
  exact (C7_streams_stored_when_scoop_exits Sample.cfg Sample.env 9000
           Sample.queue Sample.job Sample.scoop s1 35000 "capture done" ""
           eq_refl Hb eq_refl eq_refl eq_refl eq_refl eq_refl).
Defined.

(** C8: when the [finally] clause starts with a capture that carries a
    callback URL -- the capture then has a final status -- the cycle
    makes exactly one POST, to that URL, with the capture as its body
    and a timeout of ten seconds.  Whether the delivery succeeds or
    fails, there is no second attempt and the table is the one the body
    of the cycle left. *)
Theorem C8_single_webhook_delivery cfg env port s c u :
  port_rejected (Some port) = false ->
  capture (try_except cfg env port (enter s)) = Some c ->
  callback_of (Some c) = Some u ->
  let fin := start_capture_process cfg env (Some port) s in
  (status c = success \/ status c = failed) /\
  posts (trace fin) = posts (trace s) ++ [(u, c, 10%Z)] /\
  db fin = db (try_except cfg env port (enter s)) /\
  forall delivered,
    let fin' :=
      start_capture_process cfg (with_post delivered env) (Some port) s in
    db fin' = db fin /\ posts (trace fin') = posts (trace fin).
Proof.
  intros Hp Hc Hu fin.
  assert (forall env',
            try_except cfg env' port (enter s) = try_except cfg env port (enter s) ->
            let f := start_capture_process cfg env' (Some port) s in
            posts (trace f) = posts (trace s) ++ [(u, c, 10%Z)] /\
            db f = db (try_except cfg env port (enter s))) as G.
  { intros env' E f. subst f.
    rewrite start_capture_process_accepted by done. cbn zeta. rewrite E.
    cbn [db trace with_trace]. split; [|done].
    destruct (try_except_events cfg env port (enter s)) as (evs & Ht & _ & Hposts & _).
    rewrite Ht, !posts_app, Hposts. cbn [enter trace with_process_returncode
      with_process with_capture].
    unfold webhook_events. rewrite Hc, Hu.
    rewrite posts_app, app_nil_r. by destruct (post env' u). }
  split; [by eapply try_except_capture_final; [|exact Hc]|].
  destruct (G env eq_refl) as [G1 G2]. split; [exact G1|]. split; [exact G2|].
  intros delivered fin'.
  destruct (G (with_post delivered env) (try_except_with_post _ _ _ _ _))
    as [G3 G4].
  subst fin fin'. by rewrite G1, G2, G3, G4.
Qed.

Lemma C8_single_webhook_witness :
  let done :=
    set_status success
      (set_summary Sample.doc
         (set_ended_timestamp 300
            (set_stderr_logs ""
               (set_stdout_logs "capture done"
                  (set_started_timestamp 200 (set_status started Sample.job)))))) in
  port_rejected (Some 9000%Z) = false /\
  capture (try_except Sample.cfg Sample.env 9000 (enter Sample.queue)) = Some done /\
  callback_of (Some done) = Some "https://hooks.example.com/done" /\
  let fin :=
    start_capture_process Sample.cfg Sample.env (Some 9000%Z) Sample.queue in
  (status done = success \/ status done = failed) /\
  posts (trace fin)
  = posts (trace Sample.queue)
    ++ [("https://hooks.example.com/done", done, 10%Z)] /\
  db fin = db (try_except Sample.cfg Sample.env 9000 (enter Sample.queue)) /\
  forall delivered,
    let fin' :=
      start_capture_process Sample.cfg (with_post delivered Sample.env)
        (Some 9000%Z) Sample.queue in
    db fin' = db fin /\ posts (trace fin') = posts (trace fin).
Proof.
  intros done.
  assert (capture (try_except Sample.cfg Sample.env 9000 (enter Sample.queue))
          = Some done) as Hc by (vm_compute; reflexivity).
  split; [reflexivity|]. split; [exact Hc|]. split; [reflexivity|].
  exact (C8_single_webhook_delivery Sample.cfg Sample.env 9000 Sample.queue
           done "https://hooks.example.com/done" eq_refl Hc eq_refl).
Defined.

(** C9: once the port has passed the guard, the [finally] clause
    schedules exactly one cycle on the same port, after whatever the
    body has scheduled: nothing on the sentinel path, on the path
    without pending capture and on the capture path, a cycle on
    [port + 1] on the port-in-use path, which thus ends with two
    scheduled cycles. *)
Theorem C9_finally_schedules_same_port cfg env port s :
  port_rejected (Some port) = false ->
  let body := try_except cfg env port (enter s) in
  let fin := start_capture_process cfg env (Some port) s in
  scheduled (trace fin) = scheduled (trace body) ++ [port] /\
  scheduled (trace fin)
  = scheduled (trace s)
    ++ (if port_in_use_path cfg env port s then [(port + 1)%Z] else [])
    ++ [port].
Proof.
  intros H body fin. subst fin.
  rewrite start_capture_process_accepted by done. cbn zeta. fold body.
  assert (scheduled (webhook_events env (capture body)) = []) as Hw.
  { unfold webhook_events. destruct (capture body) as [c|]; [|done].
    destruct (callback_of (Some c)) as [u|]; [|done].
    by destruct (post env u). }
  cbn [trace with_trace]. rewrite !scheduled_app, Hw. cbn. split; [done|].
  destruct (try_except_events cfg env port (enter s)) as (evs & Ht & Hs & _).
  fold body in Ht. rewrite Ht, scheduled_app, Hs.
  by rewrite <- app_assoc.
Qed.

Lemma C9_finally_schedules_witness :
  port_rejected (Some 9000%Z) = false /\
  let env := Sample.env_with ReadTimeout Sample.scoop in
  let body := try_except Sample.cfg env 9000 (enter Sample.queue) in
  let fin := start_capture_process Sample.cfg env (Some 9000%Z) Sample.queue in
  scheduled (trace fin) = scheduled (trace body) ++ [9000%Z] /\
  scheduled (trace fin)
  = scheduled (trace Sample.queue)
    ++ (if port_in_use_path Sample.cfg env 9000 Sample.queue
        then [(9000 + 1)%Z] else [])
    ++ [9000%Z].
Proof.
  split; [reflexivity|].
  exact (C9_finally_schedules_same_port Sample.cfg
           (Sample.env_with ReadTimeout Sample.scoop) 9000 Sample.queue eq_refl).
Defined.

(** C10: a falsy port ([None] or 0) or a port above 65535 makes the task
    return before the [try]: the table and the disk are untouched, the
    only action is the message, no child is spawned and no cycle is
    scheduled. *)
Theorem C10_rejected_port_stops_the_loop cfg env port s :
  (port = None \/ port = Some 0%Z \/ exists p, port = Some p /\ (65535 < p)%Z) ->
  let fin := start_capture_process cfg env port s in
  db fin = db s /\
  disk fin = disk s /\
  trace fin = trace s ++ [EvPrint MsgInvalidPort] /\
  scheduled (trace fin) = scheduled (trace s).
Proof.
  intros H.
  assert (port_rejected port = true) as Hr.
  { destruct H as [->|[->|(p & -> & Hp)]]; cbn; auto.
    apply orb_true_iff. right. by apply Z.ltb_lt. }
  unfold start_capture_process. rewrite Hr.
  destruct port; cbn; rewrite scheduled_app; cbn; by rewrite app_nil_r.
Qed.

Lemma C10_rejected_port_witness :
  (Some 70000%Z = None \/ Some 70000%Z = Some 0%Z \/
   exists p, Some 70000%Z = Some p /\ (65535 < p)%Z) /\
  let fin := start_capture_process Sample.cfg Sample.env (Some 70000%Z) Sample.queue in
  db fin = db Sample.queue /\
  disk fin = disk Sample.queue /\
  trace fin = trace Sample.queue ++ [EvPrint MsgInvalidPort] /\
  scheduled (trace fin) = scheduled (trace Sample.queue).
Proof.
  assert (Some 70000%Z = None \/ Some 70000%Z = Some 0%Z \/
          exists p, Some 70000%Z = Some p /\ (65535 < p)%Z) as H.
  { right. right. exists 70000%Z. split; [reflexivity | lia]. }
  split; [exact H|].
  exact (C10_rejected_port_stops_the_loop Sample.cfg Sample.env _ Sample.queue H).
Defined.
